(** * Portfolio page (src/app/page.tsx): a shallow embedding

    The page is a tree of React function components.  The embedding keeps
    the tree as the JSX writes it: every component is a function returning
    [node]s, component boundaries are kept as [Component] nodes so that the
    reconciler's outcome (rendered, suspended, threw) can be computed, and
    the static data arrays are the literals of the source.

    What is left out is presentation only: [className] strings, SVG path
    data, the hover tilt of the project cards and transition easing.

    The file embeds the TypeScript component (the second document of
    page.tsx, [Portfolio3DApp] with the Experience section) and the root
    layout.  Four things the page leaves to its platform are embedded as
    the platform defines them, each next to the props the page passes:
    the reconciler's treatment of suspensions and errors, the animation
    library's viewport observer, the orbit controller's update, and the
    browser's validation of a form before it fires the submit event. *)

From Stdlib Require Import List String Ascii Bool Arith ZArith QArith Lia Floats.
Import ListNotations.
Set Warnings "-inexact-float,-register-all".

Local Open Scope string_scope.
Local Open Scope list_scope.

(** ** React elements *)

(** The two visual states a [motion.*] element moves between. *)
Record pose := { opacity : Z; offset_y : Z }.

(** When a [motion.*] element plays its transition: [animate] plays it on
    mount, [whileInView] when the element is in the viewport, with the
    [viewport={{ once }}] flag. *)
Inductive trigger :=
| Animate
| WhileInView (once : bool).

Record motion := {
  initial : pose;
  target : pose;
  when : trigger;
  duration : Q;
  delay : Q
}.

Definition attrs := list (string * string).

Inductive node :=
| Text (s : string)
| Elem (tag : string) (a : attrs) (anim : option motion) (children : list node)
| Component (name : string) (children : list node)
| Suspense (fallback : list node) (children : list node)
| ErrorBoundary (fallback : list node) (children : list node).

(** An element that is not animated. *)
Abbreviation el tag a children := (Elem tag a None children) (only parsing).

Definition hidden (dy : Z) : pose := {| opacity := 0; offset_y := dy |}.
Definition shown : pose := {| opacity := 1; offset_y := 0 |}.

(** ** Reconciliation

    What the reconciler is told about the run: which components are waiting
    for a resource (they suspend) and which fail while rendering or mounting
    (they throw).  [Canvas] fails when the WebGL renderer cannot be created:
    the renderer's constructor raises, and Canvas rethrows what is raised
    inside it. *)
Record env := {
  suspended : string -> bool;
  fails : string -> bool
}.

Inductive outcome :=
| Done (dom : list node)
| Suspended
| Threw.

(** A suspension is caught by the nearest [Suspense], an error by the
    nearest [ErrorBoundary]; both replace their children by the fallback.
    Everything else passes the first outcome of its children that is not
    [Done] upwards.  A component leaves no element of its own. *)
Fixpoint resolve (e : env) (n : node) : outcome :=
  let fix resolve_all (ns : list node) : outcome :=
    match ns with
    | [] => Done []
    | n :: rest =>
        match resolve e n with
        | Done d =>
            match resolve_all rest with
            | Done ds => Done (d ++ ds)
            | o => o
            end
        | o => o
        end
    end in
  match n with
  | Text s => Done [Text s]
  | Elem t a m ch =>
      match resolve_all ch with
      | Done d => Done [Elem t a m d]
      | o => o
      end
  | Component name ch =>
      if fails e name then Threw
      else if suspended e name then Suspended
      else resolve_all ch
  | Suspense fb ch =>
      match resolve_all ch with
      | Suspended => resolve_all fb
      | o => o
      end
  | ErrorBoundary fb ch =>
      match resolve_all ch with
      | Threw => resolve_all fb
      | o => o
      end
  end.

(** The same walk over a list of siblings, by name. *)
Definition resolve_all (e : env) : list node -> outcome :=
  fix resolve_all (ns : list node) : outcome :=
    match ns with
    | [] => Done []
    | n :: rest =>
        match resolve e n with
        | Done d =>
            match resolve_all rest with
            | Done ds => Done (d ++ ds)
            | o => o
            end
        | o => o
        end
    end.


(** The names of the components of a tree, in document order. *)
Fixpoint components (n : node) : list string :=
  match n with
  | Text _ => []
  | Elem _ _ _ ch => flat_map components ch
  | Component name ch => name :: flat_map components ch
  | Suspense fb ch => flat_map components ch
  | ErrorBoundary fb ch => flat_map components ch
  end.

(** ** Queries on the rendered document *)

Fixpoint get_attr (k : string) (a : attrs) : option string :=
  match a with
  | [] => None
  | (k', v) :: rest => if String.eqb k k' then Some v else get_attr k rest
  end.

Definition has_attr (k : string) (a : attrs) : bool :=
  match get_attr k a with Some _ => true | None => false end.

Definition node_attr (k : string) (n : node) : option string :=
  match n with
  | Elem _ a _ _ => get_attr k a
  | _ => None
  end.

Definition node_children (n : node) : list node :=
  match n with
  | Elem _ _ _ ch => ch
  | _ => []
  end.

(** [document.querySelectorAll(tag)], the root included. *)
Fixpoint by_tag (t : string) (n : node) : list node :=
  match n with
  | Elem t' a m ch =>
      (if String.eqb t t' then [n] else []) ++ flat_map (by_tag t) ch
  | _ => []
  end.

(** Every [id] of the document, in document order. *)
Fixpoint ids (n : node) : list string :=
  match n with
  | Elem _ a _ ch =>
      (match get_attr "id" a with Some i => [i] | None => [] end)
        ++ flat_map ids ch
  | _ => []
  end.

(** [document.getElementById]. *)
Fixpoint by_id (i : string) (n : node) : list node :=
  match n with
  | Elem _ a _ ch =>
      match get_attr "id" a with
      | Some j => if String.eqb i j then [n] else flat_map (by_id i) ch
      | None => flat_map (by_id i) ch
      end
  | _ => []
  end.

(** [textContent]: the text leaves, in document order. *)
Fixpoint texts (n : node) : list string :=
  match n with
  | Text s => [s]
  | Elem _ _ _ ch => flat_map texts ch
  | _ => []
  end.

(** The elements of a tree that carry a list [key]. *)
Fixpoint keyed (n : node) : list node :=
  match n with
  | Elem _ a _ ch =>
      (if has_attr "key" a then [n] else []) ++ flat_map keyed ch
  | _ => []
  end.

(** ** 3D objects *)

(** The per-frame callbacks, written once over the number type: the code's
    numbers are binary64 floats, and the same text read over the rationals
    gives the exact arithmetic the design has in mind. *)
Section FrameCallbacks.

Variable num : Type.
Variable add mul : num -> num -> num.
Variable lit : Q -> num.

Record rotation := { rx : num; ry : num; rz : num }.

(** SpinningTetra: [rotation.x += delta * 0.3; rotation.y += delta * 0.5]. *)
Definition SpinningTetra_useFrame (r : rotation) (delta : num) : rotation :=
  {| rx := add (rx r) (mul delta (lit 0.3));
     ry := add (ry r) (mul delta (lit 0.5));
     rz := rz r |}.

(** FloatingKnot: [rotation.x += delta * 0.25; rotation.z += delta * 0.15]. *)
Definition FloatingKnot_useFrame (r : rotation) (delta : num) : rotation :=
  {| rx := add (rx r) (mul delta (lit 0.25));
     ry := ry r;
     rz := add (rz r) (mul delta (lit 0.15)) |}.

(** The render loop calls the callback once per frame with the time since
    the previous frame. *)
Definition frames (cb : rotation -> num -> rotation) (r : rotation)
    (deltas : list num) : rotation :=
  fold_left cb deltas r.

(** The time the frames cover. *)
Definition elapsed (zero : num) (deltas : list num) : num :=
  fold_left add deltas zero.

End FrameCallbacks.

Arguments rx {num} _.
Arguments ry {num} _.
Arguments rz {num} _.
Arguments Build_rotation {num} _ _ _.

(** A decimal literal as the binary64 value the language reads it as: both
    parts are small integers, so the quotient is the nearest float. *)
Definition float_of_Q (q : Q) : float :=
  PrimFloat.div (PrimFloat.of_uint63 (Uint63.of_Z (Qnum q)))
                (PrimFloat.of_uint63 (Uint63.of_Z (Zpos (Qden q)))).

Module Float64.
Definition SpinningTetra_frames : rotation float -> list float -> rotation float :=
  frames float (SpinningTetra_useFrame float PrimFloat.add PrimFloat.mul float_of_Q).
Definition FloatingKnot_frames : rotation float -> list float -> rotation float :=
  frames float (FloatingKnot_useFrame float PrimFloat.add PrimFloat.mul float_of_Q).
Definition total : list float -> float := elapsed float PrimFloat.add 0%float.
Definition rest : rotation float := Build_rotation 0%float 0%float 0%float.
End Float64.

Module Exact.
Definition SpinningTetra_frames : rotation Q -> list Q -> rotation Q :=
  frames Q (SpinningTetra_useFrame Q Qplus Qmult (fun q => q)).
Definition FloatingKnot_frames : rotation Q -> list Q -> rotation Q :=
  frames Q (FloatingKnot_useFrame Q Qplus Qmult (fun q => q)).
Definition total : list Q -> Q := elapsed Q Qplus 0%Q.
End Exact.

(** ** Orbit controls

    [<OrbitControls enablePan={false} maxDistance={8} minDistance={3} />]:
    the props the scene passes, the others at the defaults of the
    component (damping on, factor 0.05, no limits).  The controller is the
    library's and works on the numbers of the language: every update reads
    the camera's position back into spherical coordinates, adds the
    collected rotation, restricts the radius, moves the target by the
    collected pan and rebuilds the position.  The camera looks along y-up,
    so the controller's change of axes is the identity and is left out, as
    are the limits on the two angles that no prop sets. *)
Record OrbitControlsProps := {
  enablePan : bool;
  maxDistance : float;
  minDistance : float;
  enableDamping : bool;
  dampingFactor : float
}.

Definition OrbitControls_defaults : OrbitControlsProps :=
  {| enablePan := true; maxDistance := infinity; minDistance := 0%float;
     enableDamping := true; dampingFactor := 0.05%float |}.

Definition PortfolioScene_controls : OrbitControlsProps :=
  {| enablePan := false; maxDistance := 8%float; minDistance := 3%float;
     enableDamping := true; dampingFactor := 0.05%float |}.

Definition vec3 : Type := float * float * float.

(** [<Canvas camera={{ position: [0, 1.2, 5.5], fov: 42 }}>]. *)
Definition camera_position : vec3 := (0, 1.2, 5.5)%float.

(** What the controller asks of the math library.  The language fixes the
    arithmetic and the square root, not the last bit of these four. *)
Record MathLib := {
  sin : float -> float;
  cos : float -> float;
  acos : float -> float;
  atan2 : float -> float -> float
}.

(** [Math.max] and [Math.min] (signed zeros aside). *)
Definition Math_max (a b : float) : float :=
  if is_nan a || is_nan b then nan else if (a <? b)%float then b else a.

Definition Math_min (a b : float) : float :=
  if is_nan a || is_nan b then nan else if (b <? a)%float then b else a.

Definition Math_PI : float := 3.141592653589793%float.

Definition vadd (u v : vec3) : vec3 :=
  match u, v with
  | (a, b, c), (a', b', c') => (a + a', b + b', c + c')%float
  end.

Definition vsub (u v : vec3) : vec3 :=
  match u, v with
  | (a, b, c), (a', b', c') => (a - a', b - b', c - c')%float
  end.

(** [u.addScaledVector(v, s)] and [v.multiplyScalar(s)]. *)
Definition addScaledVector (u v : vec3) (s : float) : vec3 :=
  match u, v with
  | (a, b, c), (a', b', c') => (a + a' * s, b + b' * s, c + c' * s)%float
  end.

Definition multiplyScalar (v : vec3) (s : float) : vec3 :=
  match v with (a, b, c) => (a * s, b * s, c * s)%float end.

(** [v.length()]. *)
Definition vlength (v : vec3) : float :=
  match v with (a, b, c) => sqrt (a * a + b * b + c * c)%float end.

Record Spherical := { radius : float; phi : float; theta : float }.

(** [spherical.setFromVector3(v)]. *)
Definition setFromVector3 (M : MathLib) (v : vec3) : Spherical :=
  match v with
  | (x, y, z) =>
      let radius := vlength v in
      if (radius =? 0)%float
      then {| radius := radius; phi := 0%float; theta := 0%float |}
      else {| radius := radius;
              phi := acos M (Math_max (-1)%float (Math_min 1%float (y / radius)%float));
              theta := atan2 M x z |}
  end.

(** [vector.setFromSpherical(s)]. *)
Definition setFromSpherical (M : MathLib) (s : Spherical) : vec3 :=
  let sinPhiRadius := (sin M (phi s) * radius s)%float in
  ((sinPhiRadius * sin M (theta s))%float,
   (cos M (phi s) * radius s)%float,
   (sinPhiRadius * cos M (theta s))%float).

(** [spherical.makeSafe()]. *)
Definition makeSafe (s : Spherical) : Spherical :=
  {| radius := radius s;
     phi := Math_max 0.000001%float (Math_min (Math_PI - 0.000001)%float (phi s));
     theta := theta s |}.

(** [Math.max(minDistance, Math.min(maxDistance, dist))]. *)
Definition clampDistance (p : OrbitControlsProps) (dist : float) : float :=
  Math_max (minDistance p) (Math_min (maxDistance p) dist).

(** What the controller holds: the camera's position and the target it
    orbits, the spherical coordinates of its last update, and what the
    pointer handlers have collected since ([sphericalDelta], [scale],
    [panOffset]). *)
Record controls := {
  position : vec3;
  orbit_target : vec3;
  spherical : Spherical;
  sphericalDelta : Spherical;
  scale : float;
  panOffset : vec3
}.

(** [update()]. *)
Definition update (M : MathLib) (p : OrbitControlsProps) (c : controls) : controls :=
  let s := setFromVector3 M (vsub (position c) (orbit_target c)) in
  let turned :=
    if enableDamping p
    then {| radius := radius s;
            phi := (phi s + phi (sphericalDelta c) * dampingFactor p)%float;
            theta := (theta s + theta (sphericalDelta c) * dampingFactor p)%float |}
    else {| radius := radius s;
            phi := (phi s + phi (sphericalDelta c))%float;
            theta := (theta s + theta (sphericalDelta c))%float |} in
  let limited :=
    makeSafe {| radius := radius turned;
                phi := Math_max 0%float (Math_min Math_PI (phi turned));
                theta := theta turned |} in
  let target :=
    if enableDamping p
    then addScaledVector (orbit_target c) (panOffset c) (dampingFactor p)
    else vadd (orbit_target c) (panOffset c) in
  let s' := {| radius := clampDistance p (radius limited * scale c)%float;
               phi := phi limited;
               theta := theta limited |} in
  {| position := vadd target (setFromSpherical M s');
     orbit_target := target;
     spherical := s';
     sphericalDelta :=
       if enableDamping p
       then {| radius := radius (sphericalDelta c);
               phi := (phi (sphericalDelta c) * (1 - dampingFactor p))%float;
               theta := (theta (sphericalDelta c) * (1 - dampingFactor p))%float |}
       else {| radius := radius (sphericalDelta c); phi := 0%float; theta := 0%float |};
     scale := 1%float;
     panOffset :=
       if enableDamping p
       then multiplyScalar (panOffset c) (1 - dampingFactor p)%float
       else (0, 0, 0)%float |}.

(** What a pointer gesture asks for: [rotateLeft] and [rotateUp] by two
    angles, [dollyIn] or [dollyOut] by a factor, a pan by an offset. *)
Inductive gesture :=
| Rotate (angleLeft angleUp : float)
| DollyIn (dollyScale : float)
| DollyOut (dollyScale : float)
| Pan (d : vec3).

(** What reaches the controller: a gesture, or a frame of the render loop,
    which updates it. *)
Inductive event :=
| Pointer (g : gesture)
| Frame.

(** The pointer handlers: each collects what its gesture asks for and
    updates; the pan handler returns at once when panning is not enabled. *)
Definition onPointer (M : MathLib) (p : OrbitControlsProps) (c : controls)
    (g : gesture) : controls :=
  match g with
  | Rotate angleLeft angleUp =>
      update M p
        {| position := position c; orbit_target := orbit_target c;
           spherical := spherical c;
           sphericalDelta :=
             {| radius := radius (sphericalDelta c);
                phi := (phi (sphericalDelta c) - angleUp)%float;
                theta := (theta (sphericalDelta c) - angleLeft)%float |};
           scale := scale c; panOffset := panOffset c |}
  | DollyIn k =>
      update M p
        {| position := position c; orbit_target := orbit_target c;
           spherical := spherical c; sphericalDelta := sphericalDelta c;
           scale := (scale c * k)%float; panOffset := panOffset c |}
  | DollyOut k =>
      update M p
        {| position := position c; orbit_target := orbit_target c;
           spherical := spherical c; sphericalDelta := sphericalDelta c;
           scale := (scale c / k)%float; panOffset := panOffset c |}
  | Pan d =>
      if enablePan p
      then update M p
             {| position := position c; orbit_target := orbit_target c;
                spherical := spherical c; sphericalDelta := sphericalDelta c;
                scale := scale c; panOffset := vadd (panOffset c) d |}
      else c
  end.

Definition step (M : MathLib) (p : OrbitControlsProps) (c : controls) (e : event) : controls :=
  match e with
  | Pointer g => onPointer M p c g
  | Frame => update M p c
  end.

(** [new OrbitControls(camera)]: the target at the origin, nothing
    collected, and one update. *)
Definition OrbitControls_new (M : MathLib) (p : OrbitControlsProps) (camera : vec3) : controls :=
  update M p
    {| position := camera;
       orbit_target := (0, 0, 0)%float;
       spherical := {| radius := 1%float; phi := 0%float; theta := 0%float |};
       sphericalDelta := {| radius := 1%float; phi := 0%float; theta := 0%float |};
       scale := 1%float;
       panOffset := (0, 0, 0)%float |}.

Definition orbit (M : MathLib) (p : OrbitControlsProps) (camera : vec3)
    (events : list event) : controls :=
  fold_left (step M p) events (OrbitControls_new M p camera).

(** How far the camera is from the point it orbits. *)
Definition camera_distance (c : controls) : float :=
  vlength (vsub (position c) (orbit_target c)).



(** ** The scene graph *)

Definition SpinningTetra (color : string) (wire : bool) : node :=
  Component "SpinningTetra"
    [ el "group" []
        [ el "mesh" []
            [ el "tetrahedronGeometry" [("args", "1.3,0")] [];
              if wire
              then el "meshBasicMaterial" [("wireframe", "true"); ("color", color)] []
              else el "meshStandardMaterial"
                     [("color", color); ("metalness", "0.3"); ("roughness", "0.4")] [] ] ] ].

Definition FloatingKnot : node :=
  Component "FloatingKnot"
    [ Component "Float"
        [ el "mesh" []
            [ el "torusKnotGeometry" [("args", "0.8,0.26,240,16")] [];
              el "meshStandardMaterial"
                [("color", "#60a5fa"); ("metalness", "0.65"); ("roughness", "0.2")] [] ] ] ].

Definition Glow : node :=
  Component "Glow"
    [ el "group" []
        [ el "pointLight" [("position", "2,2,2"); ("intensity", "2"); ("color", "#f59e0b")] [];
          el "pointLight" [("position", "-2,-2,-2"); ("intensity", "1.4"); ("color", "#60a5fa")] [];
          el "ambientLight" [("intensity", "0.35")] [] ] ].

Definition SceneBadge : node :=
  Component "SceneBadge"
    [ Component "Html" [ el "div" [] [Text "Interactive Portfolio"] ] ].

Definition PortfolioScene : node :=
  Component "PortfolioScene"
    [ el "group" []
        [ Glow;
          Component "Stars" [];
          FloatingKnot;
          el "group" [("position", "2.2,0.2,-0.6")] [SpinningTetra "#22d3ee" false];
          el "group" [("position", "-2.4,-0.1,0.6")] [SpinningTetra "#f59e0b" true];
          SceneBadge;
          Component "OrbitControls" [] ] ].

(** ** UI blocks *)

Definition entrance (dy : Z) (w : trigger) (dur del : Q) : motion :=
  {| initial := hidden dy; target := shown; when := w;
     duration := dur; delay := del |}.

(** Section: a heading block and a content block, each a [motion] element
    with [whileInView] and [viewport={{ once: true }}]. *)
Definition Section (id : string) (title kicker children : list node) : node :=
  Component "Section"
    [ el "section" [("id", id)]
        [ Elem "h2" [] (Some (entrance 12 (WhileInView true) 0.6 0))
            (el "span" [] kicker :: title);
          Elem "div" [] (Some (entrance 12 (WhileInView true) 0.6 0.1))
            children ] ].

(** The two animated blocks of a rendered section. *)
Definition section_blocks (section : node) : list (option motion) :=
  match section with
  | Component _ [Elem _ _ _ blocks] =>
      map (fun b => match b with Elem _ _ m _ => m | _ => None end) blocks
  | _ => []
  end.

(** [tags?: string[]] and [href?: string] may be left out. *)
Record ProjectCardProps := {
  title : string;
  description : string;
  tags : option (list string);
  href : option string
}.

(** [function ProjectCard({ title, description, tags = [], href = "#" })]. *)
Definition ProjectCard (p : ProjectCardProps) : node :=
  let tags := match tags p with Some ts => ts | None => [] end in
  let href := match href p with Some h => h | None => "#" end in
  Component "ProjectCard"
    [ Elem "a" [("href", href); ("target", "_blank"); ("rel", "noreferrer")]
        (Some (entrance 16 (WhileInView true) 0.5 0))
        [ el "div" []
            [ el "div" []
                [ el "h3" [] [Text (title p)];
                  el "span" [] [Text "↗"] ];
              el "p" [] [Text (description p)];
              el "div" []
                (map (fun t => el "span" [("key", t)] [Text t]) tags) ] ] ].

(** What a rendered card shows. *)
Definition card_href (card : node) : option string := node_attr "href" card.
Definition card_title (card : node) : list string := flat_map texts (by_tag "h3" card).
Definition card_description (card : node) : list string := flat_map texts (by_tag "p" card).
Definition card_tags (card : node) : list string := flat_map texts (keyed card).

(** ** Contact form *)

(** [const [sent, setSent] = useState(false)]. *)
Record ContactFormState := { sent : bool }.

Definition ContactForm_mount : ContactFormState := {| sent := false |}.

Definition setSent (b : bool) (s : ContactFormState) : ContactFormState :=
  {| sent := b |}.

(** What the four controls hold when the form is submitted. *)
Record FormValues := {
  fullName : string;
  email : string;
  subject : string;
  message : string
}.

Record FormEvent := {
  currentTarget : FormValues;
  defaultPrevented : bool
}.

Definition preventDefault (e : FormEvent) : FormEvent :=
  {| currentTarget := currentTarget e; defaultPrevented := true |}.

(** [function onSubmit(e) { e.preventDefault(); setSent(true); }]. *)
Definition onSubmit (e : FormEvent) (s : ContactFormState) : FormEvent * ContactFormState :=
  let e := preventDefault e in
  (e, setSent true s).

Definition ContactForm (s : ContactFormState) : node :=
  Component "ContactForm"
    [ el "form" [("onSubmit", "onSubmit")]
        [ el "input" [("placeholder", "Full name"); ("required", "true")] [];
          el "input" [("placeholder", "Email"); ("type", "email"); ("required", "true")] [];
          el "input" [("placeholder", "Subject")] [];
          el "textarea" [("placeholder", "Message"); ("required", "true")] [];
          el "button" [("type", "submit")]
            [Text (if sent s then "Sent ✓" else "Send message")] ] ].

(** The component's operations while it is mounted: it renders, and the
    form delivers submit events to [onSubmit].  Nothing else touches the
    state. *)
Inductive operation :=
| Render
| Submit (e : FormEvent).

Definition perform (s : ContactFormState) (op : operation) : ContactFormState :=
  match op with
  | Render => s
  | Submit e => snd (onSubmit e s)
  end.

Definition perform_all (s : ContactFormState) (ops : list operation) : ContactFormState :=
  fold_left perform ops s.

(** ** Top-level app *)

Record NavLink := { nav_href : string; label : string }.

Definition links : list NavLink :=
  [ {| nav_href := "#about"; label := "About" |};
    {| nav_href := "#projects"; label := "Projects" |};
    {| nav_href := "#skills"; label := "Skills" |};
    {| nav_href := "#contact"; label := "Contact" |} ].

Definition Navbar : node :=
  Component "Navbar"
    [ el "div" []
        [ el "nav" []
            [ el "ul" []
                (el "li" [] [Text "Sneh"]
                 :: map (fun l =>
                           el "li" [("key", nav_href l)]
                             [ el "a" [("href", nav_href l)] [Text (label l)] ])
                        links) ] ] ].

Definition rise (w : trigger) (dur del : Q) : option motion :=
  Some (entrance 12 w dur del).

Definition Hero : node :=
  Component "Hero"
    [ el "div" []
        [ el "div" []
            [ Component "Canvas"
                [ el "div" []
                    [ el "div" []
                        [ el "canvas" [] [ Suspense [] [PortfolioScene] ] ] ] ] ];
          el "div" []
            [ el "div" []
                [ Elem "h1" [] (rise Animate 0.7 0) [ el "span" [] [Text "Sneh Italiya"] ];
                  Elem "p" [] (rise Animate 0.8 0.08)
                    [ Text "Full‑stack developer crafting delightful, performant experiences. Focused on React, Next.js, Node, and 3D web." ];
                  Elem "div" [] (rise Animate 0.8 0.16)
                    [ el "a" [("href", "#projects")] [Text "View Projects"];
                      el "a" [("href", "#contact")] [Text "Contact"] ];
                  el "div" []
                    [ el "a" [("href", "#"); ("aria-label", "GitHub")] [ el "svg" [] [] ];
                      el "a" [("href", "#"); ("aria-label", "LinkedIn")] [ el "svg" [] [] ];
                      el "span" [] [ el "span" [] []; Text "Scroll" ] ] ] ];
          el "div" [] [] ] ].

Definition skills : list string :=
  [ "React/Next.js";
    "Node.js";
    "TypeScript";
    "Tailwind CSS";
    "React Three Fiber";
    "PostgreSQL/MySQL";
    "Redis";
    "Docker";
    "CI/CD" ].

(** The grid of [Skills], over the list it maps. *)
Definition SkillsGrid (skills : list string) : node :=
  Component "Skills"
    [ el "div" [] (map (fun s => el "div" [("key", s)] [Text s]) skills) ].

Definition Skills : node := SkillsGrid skills.

Record Role := {
  period : string;
  role_title : string;
  org : string;
  orgLink : string;
  points : list string
}.

Definition roles : list Role :=
  [ {| period := "2024 — Present";
       role_title := "Full‑stack Engineer";
       org := "Freelance";
       orgLink := "https://snehitaliya.dev";
       points := ["Shipped performant Next.js apps"; "Built 3D interfaces with R3F"] |};
    {| period := "2023 — 2024";
       role_title := "Frontend Developer";
       org := "Product Studio";
       orgLink := "#";
       points := ["Component libraries & design systems"; "Accessibility & performance"] |} ].

Definition Timeline (roles : list Role) : node :=
  Component "Experience"
    [ el "div" []
        [ el "div" [] [];
          el "div" []
            (map (fun r =>
                    el "div" [("key", role_title r)]
                      [ el "div" [] [];
                        el "div" []
                          [ el "div" []
                              [ el "span" [] [Text (period r)];
                                el "a" [("href", orgLink r); ("target", "_blank");
                                        ("rel", "noopener noreferrer")] [Text (org r)] ];
                            el "h3" [] [Text (role_title r)];
                            el "ul" []
                              (map (fun p => el "li" [("key", p)] [Text p]) (points r)) ] ])
                 roles) ] ].

Definition Experience : node := Timeline roles.

Definition projects : list ProjectCardProps :=
  [ {| title := "AI Worksheet Pro";
       description := "Multi‑curriculum generator with quizzes, vocabulary, and export workflows.";
       tags := Some ["React"; "Node"; "MySQL"; "RAG"];
       href := Some "https://aiworksheetpro.com" |};
    {| title := "Gems Global Jewels";
       description := "Jewellery admin portal with dynamic SKUs, Cloudinary media, and Redis caching.";
       tags := Some ["React"; "Express"; "Redis"; "Cloudinary"];
       href := Some "https://gemsglobaljewels.com" |};
    {| title := "ETL – Pet Rescue Charity";
       description := "Talend pipelines to Oracle star schema; analytics and dashboards.";
       tags := Some ["Talend"; "Oracle"; "SQL"];
       href := Some "#" |};
    {| title := "Realtime Dashboard";
       description := "WebSocket powered metrics with streaming charts and auth.";
       tags := Some ["Next.js"; "WebSocket"; "Redis"];
       href := Some "#" |} ].

(** The gallery of the Projects section, over the list it maps:
    [projects.map((p) => <motion.div key={p.title}><ProjectCard {...p} /></motion.div>)]. *)
Definition Gallery (projects : list ProjectCardProps) : node :=
  el "div" []
    (map (fun p => el "div" [("key", title p)] [ProjectCard p]) projects).

Definition About : node :=
  el "div" []
    [ el "p" []
        [ Text "Builder who loves shipping polished interfaces and solving hard problems end‑to‑end. Obsessed with performance, accessibility, and developer ergonomics. Comfortable across the stack from UX to infra." ];
      el "div" []
        [ el "div" [] [ el "div" [] [Text "5+"]; el "div" [] [Text "Projects"] ];
          el "div" [] [ el "div" [] [Text "3D"]; el "div" [] [Text "R3F"] ];
          el "div" [] [ el "div" [] [Text "A11y"]; el "div" [] [Text "First"] ] ] ].

(** [year] is what [new Date().getFullYear()] reads; [s] is the state of the
    mounted contact form. *)
Definition Portfolio3DApp (year : string) (s : ContactFormState) : node :=
  Component "Portfolio3DApp"
    [ el "main" []
        [ Navbar;
          Hero;
          Section "about" [Text "About"] [Text "Introduction"] [About];
          Section "projects" [Text "Projects"] [Text "Work"] [Gallery projects];
          Section "skills" [Text "Skills"] [Text "Toolkit"] [Skills];
          Section "experience" [Text "Experience"] [Text "Timeline"] [Experience];
          Section "contact" [Text "Contact"] [Text "Let’s build"] [ContactForm s];
          el "div" [] [];
          el "footer" []
            [ el "span" [] [Text "© "; Text year; Text " Sneh Italiya"];
              el "a" [("href", "/resume.pdf"); ("target", "_blank");
                      ("rel", "noopener noreferrer")] [Text "view resume"] ] ] ].

(** The root layout (app/layout.tsx): three background layers behind the
    page. *)
Definition RootLayout (children : list node) : node :=
  Component "RootLayout"
    [ el "html" [("lang", "en")]
        [ el "body" []
            (el "div" [] [ el "div" [] []; el "div" [] []; el "div" [] [] ]
             :: children) ] ].

(** A run in which no component suspends or fails. *)
Definition healthy : env :=
  {| suspended := fun _ => false; fails := fun _ => false |}.

(** The document of a run, when there is one. *)
Definition document (e : env) (year : string) (s : ContactFormState) : list node :=
  match resolve e (Portfolio3DApp year s) with
  | Done dom => dom
  | _ => []
  end.

(** The hrefs of the links of the navbar, as rendered. *)
Definition navbar_hrefs : list string :=
  match resolve healthy Navbar with
  | Done dom => flat_map (fun n => flat_map (fun a => match node_attr "href" a with
                                                      | Some h => [h]
                                                      | None => []
                                                      end) (by_tag "a" n)) dom
  | _ => []
  end.

(** The anchor an in-page href scrolls to: the id after the hash. *)
Definition anchor_of (h : string) : option string :=
  match h with
  | String "#"%char i => Some i
  | _ => None
  end.

(** ** The viewport observer of a [whileInView] element

    The animation library watches each [whileInView] element with an
    intersection observer.  The callback below is the library's, over the
    props of the element: a report that changes nothing returns early; with
    [once], leaving the viewport after a first entry changes nothing;
    an entry marks the element as entered; then the [whileInView] state is
    switched, and switching it to the value it has plays nothing. *)
Record in_view := {
  isInView : bool;
  hasEnteredView : bool;
  active : bool;
  shows : pose;
  played : nat
}.

Definition observe (m : motion) : in_view :=
  {| isInView := false; hasEnteredView := false; active := false;
     shows := initial m; played := 0 |}.

Definition viewport_once (m : motion) : bool :=
  match when m with
  | WhileInView once => once
  | Animate => false
  end.

Definition setActive (m : motion) (b : bool) (v : in_view) : in_view :=
  if Bool.eqb (active v) b then v
  else {| isInView := isInView v;
          hasEnteredView := hasEnteredView v;
          active := b;
          shows := if b then target m else initial m;
          played := if b then S (played v) else played v |}.

Definition onIntersectionUpdate (m : motion) (v : in_view) (isIntersecting : bool) : in_view :=
  if Bool.eqb (isInView v) isIntersecting then v
  else
    let v := {| isInView := isIntersecting;
                hasEnteredView := hasEnteredView v;
                active := active v; shows := shows v; played := played v |} in
    if viewport_once m && negb isIntersecting && hasEnteredView v then v
    else
      setActive m isIntersecting
        {| isInView := isInView v;
           hasEnteredView := hasEnteredView v || isIntersecting;
           active := active v; shows := shows v; played := played v |}.

(** What an element has done after a scroll, given as the reports of its
    observer ([true]: in the viewport). *)
Definition scroll (m : motion) (reports : list bool) : in_view :=
  fold_left (onIntersectionUpdate m) reports (observe m).

(** ** The browser's side of a submission

    The form has no [noValidate], so a submission the user asks for (the
    submit button, Enter in a field) first runs the constraint validation of
    the controls and stops there when one is invalid.  Only then is the
    submit event fired; unless the handler prevents it, the default action
    navigates, which loads the page anew. *)

Definition code_in (lo hi : nat) (c : ascii) : bool :=
  let n := nat_of_ascii c in (lo <=? n)%nat && (n <=? hi)%nat.

Definition is_alnum (c : ascii) : bool :=
  code_in 48 57 c || code_in 65 90 c || code_in 97 122 c.

Fixpoint mem_char (c : ascii) (s : string) : bool :=
  match s with
  | EmptyString => false
  | String d r => Ascii.eqb c d || mem_char c r
  end.

Fixpoint all_chars (f : ascii -> bool) (s : string) : bool :=
  match s with
  | EmptyString => true
  | String c r => f c && all_chars f r
  end.

Definition is_atext (c : ascii) : bool :=
  is_alnum c || mem_char c "!#$%&'*+-/=?^_`{|}~".

Fixpoint split_on (sep : ascii) (s : string) : list string :=
  match s with
  | EmptyString => [EmptyString]
  | String c r =>
      if Ascii.eqb c sep then EmptyString :: split_on sep r
      else match split_on sep r with
           | h :: t => String c h :: t
           | [] => [String c EmptyString]
           end
  end.

Definition first_char (s : string) : option ascii :=
  match s with
  | EmptyString => None
  | String c _ => Some c
  end.

Fixpoint last_char (s : string) : option ascii :=
  match s with
  | EmptyString => None
  | String c EmptyString => Some c
  | String _ r => last_char r
  end.

Definition starts_alnum (o : option ascii) : bool :=
  match o with Some c => is_alnum c | None => false end.

(** A label of a domain: letters, digits and hyphens, at most 63 of them,
    a letter or digit first and last. *)
Definition label_ok (l : string) : bool :=
  (String.length l <=? 63)%nat
  && all_chars (fun c => is_alnum c || Ascii.eqb c "-"%char) l
  && starts_alnum (first_char l)
  && starts_alnum (last_char l).

(** A valid e-mail address as [type="email"] checks it: a local part of
    atext characters and dots, one at sign, and a domain of labels. *)
Definition valid_email (s : string) : bool :=
  match split_on "@"%char s with
  | [local; domain] =>
      negb (String.eqb local EmptyString)
      && all_chars (fun c => is_atext c || Ascii.eqb c "."%char) local
      && forallb label_ok (split_on "."%char domain)
  | _ => false
  end.

(** The controls of a form, in document order. *)
Fixpoint form_controls (n : node) : list node :=
  match n with
  | Elem t a m ch =>
      (if String.eqb t "input" || String.eqb t "textarea" then [n] else [])
        ++ flat_map form_controls ch
  | _ => []
  end.

(** What the controls hold, in document order. *)
Definition control_values (v : FormValues) : list string :=
  [fullName v; email v; subject v; message v].

Definition is_empty (s : string) : bool :=
  match s with EmptyString => true | String _ _ => false end.

(** A control is invalid when it is [required] and empty, or of
    [type="email"] and holds something that is no e-mail address. *)
Definition control_valid (control : node) (value : string) : bool :=
  negb (match node_attr "required" control with
        | Some _ => is_empty value
        | None => false
        end)
  && match node_attr "type" control with
     | Some t =>
         if String.eqb t "email"
         then is_empty value || valid_email value
         else true
     | None => true
     end.

Definition check_validity (form : node) (v : FormValues) : bool :=
  forallb (fun cv => control_valid (fst cv) (snd cv))
          (combine (form_controls form) (control_values v)).

(** Firing the submit event at the form: the handler runs, and the default
    action follows unless it was prevented. *)
Definition fire_submit (v : FormValues) (s : ContactFormState) : ContactFormState :=
  let (e, s') := onSubmit {| currentTarget := v; defaultPrevented := false |} s in
  if defaultPrevented e then s' else ContactForm_mount.

(** The user submits the rendered form. *)
Definition request_submit (v : FormValues) (s : ContactFormState) : ContactFormState :=
  match resolve healthy (ContactForm s) with
  | Done [form] =>
      if match node_attr "noValidate" form with Some _ => true | None => false end
      then fire_submit v s
      else if check_validity form v then fire_submit v s
      else s
  | _ => s
  end.

(** The label of the submit button of the rendered form. *)
Definition button_label (s : ContactFormState) : list string :=
  match resolve healthy (ContactForm s) with
  | Done dom => flat_map (fun n => flat_map texts (by_tag "button" n)) dom
  | _ => []
  end.

(** Firing the event without asking the browser to validate, as
    [form.dispatchEvent(new Event("submit", { bubbles: true }))] does. *)
Definition dispatch_submit (v : FormValues) (s : ContactFormState) : ContactFormState :=
  fire_submit v s.

Definition is_submit (op : operation) : bool :=
  match op with Submit _ => true | Render => false end.

(** What the browser checks before it fires the event, read off the
    attributes of the four controls. *)
Definition passes_validation (v : FormValues) : bool :=
  negb (is_empty (fullName v))
  && (negb (is_empty (email v)) && (is_empty (email v) || valid_email (email v)))
  && negb (is_empty (message v)).

(** Every animated element of a tree, in document order. *)
Fixpoint motions (n : node) : list motion :=
  match n with
  | Elem _ _ m ch =>
      (match m with Some m => [m] | None => [] end) ++ flat_map motions ch
  | _ => []
  end.

(** An element plays its entrance at most once: whatever the scroll, the
    transition has started at most once, and from the first time the
    element was in the viewport it has started exactly once and the element
    shows its [target]. *)
Definition plays_once (m : motion) : Prop :=
  forall reports : list bool,
    (played (scroll m reports) <= 1)%nat
    /\ forall later : list bool,
         played (scroll m (reports ++ true :: later)) = 1%nat
         /\ shows (scroll m (reports ++ true :: later)) = target m.

(** What the observer keeps true of an element with [once]. *)
Definition once_state (m : motion) (v : in_view) : Prop :=
  (active v = false /\ played v = 0%nat /\ shows v = initial m)
  \/ (active v = true /\ played v = 1%nat /\ shows v = target m
      /\ hasEnteredView v = true).

(** What a project card renders to. *)
Definition rendered_card (p : ProjectCardProps) : node :=
  Elem "a"
    [("href", match href p with Some h => h | None => "#" end);
     ("target", "_blank"); ("rel", "noreferrer")]
    (Some (entrance 16 (WhileInView true) 0.5 0))
    [ el "div" []
        [ el "div" []
            [ el "h3" [] [Text (title p)];
              el "span" [] [Text "↗"] ];
          el "p" [] [Text (description p)];
          el "div" []
            (map (fun t => el "span" [("key", t)] [Text t])
                 (match tags p with Some ts => ts | None => [] end)) ] ].

(** The part of a document under the element with a given id. *)
Definition within (i : string) (doc : list node) : list node :=
  flat_map (by_id i) doc.

(** The cards of a gallery, in document order. *)
Definition gallery_cards (ps : list ProjectCardProps) : list node :=
  match resolve healthy (Gallery ps) with
  | Done dom => flat_map (by_tag "a") dom
  | _ => []
  end.

(** The entries of a skills grid, in document order. *)
Definition grid_entries (l : list string) : list string :=
  match resolve healthy (SkillsGrid l) with
  | Done dom => flat_map texts (flat_map keyed dom)
  | _ => []
  end.

(** The tags a project declares, none when it declares none. *)
Definition declared_tags (p : ProjectCardProps) : list string :=
  match tags p with Some ts => ts | None => [] end.

(** The project cards, the skill entries, the role headings and bullet
    points, and the navbar labels of a document, in document order. *)
Definition page_cards (doc : list node) : list node :=
  flat_map (by_tag "a") (within "projects" doc).

Definition page_skills (doc : list node) : list string :=
  flat_map texts (flat_map keyed (within "skills" doc)).

Definition page_roles (doc : list node) : list string :=
  flat_map texts (flat_map (by_tag "h3") (within "experience" doc)).

Definition page_points (doc : list node) : list string :=
  flat_map texts (flat_map (by_tag "li") (within "experience" doc)).

Definition page_nav (doc : list node) : list (option string * list string) :=
  map (fun a => (node_attr "href" a, texts a))
      (flat_map (by_tag "a") (flat_map (by_tag "nav") doc)).

(** The five anchors the page is to offer. *)
Definition page_anchors : list string :=
  ["about"; "projects"; "skills"; "experience"; "contact"].

(** A run in which one component waits for a resource. *)
Definition waiting_for (name : string) : env :=
  {| suspended := String.eqb name; fails := fun _ => false |}.

(** A run in which the WebGL renderer cannot be created. *)
Definition no_webgl : env :=
  {| suspended := fun _ => false; fails := String.eqb "Canvas" |}.




Definition lookup (table : list (float * float)) (x : float) : float :=
  match find (fun row => (fst row =? x)%float) table with
  | Some row => snd row
  | None => nan
  end.

(** The math library at the arguments of the run of [C6] below: the
    correctly rounded values of the sine, the cosine and the arc cosine
    there (each lies within 0.27 units in the last place of the exact
    value), the exact values at zero, and no number elsewhere. *)
Definition Math_at_run : MathLib :=
  {| sin := lookup [ (0, 0);
                     (1.355980926393238, 0.9770157614099922);
                     (1.3544184263932382, 0.9766814953445436);
                     (1.3529340513932382, 0.9763617339489729) ]%float;
     cos := lookup [ (0, 1);
                     (1.355980926393238, 0.2131670752167255);
                     (1.3544184263932382, 0.2146934015090968);
                     (1.3529340513932382, 0.2161429260469912) ]%float;
     acos := lookup [ (0.21316707521672557, 1.355980926393238);
                      (0.21316707521672554, 1.355980926393238);
                      (0.21469340150909683, 1.3544184263932382) ]%float;
     atan2 := fun y x =>
                if (y =? 0)%float && (0 <? x)%float then 0%float else nan |}.


(** Rendering by rewriting with the equations of [resolve]. *)
Create Rewrite HintDb render.

Ltac render :=
  repeat (autorewrite with render; cbn [app healthy fails suspended]).

(** ** Links, keys and submissions of the rendered page *)

(** Every link of a document, in document order. *)
Definition links_of (doc : list node) : list node :=
  flat_map (by_tag "a") doc.

(** A link opens a new browsing context with [target="_blank"]; it is safe
    to do so when its [rel] has the token [noreferrer], which keeps the
    opened page from reaching back to this one. *)
Definition opens_new_context (a : node) : bool :=
  match node_attr "target" a with
  | Some t => String.eqb t "_blank"
  | None => false
  end.

Definition rel_tokens (a : node) : list string :=
  match node_attr "rel" a with
  | Some r => split_on " "%char r
  | None => []
  end.

Definition link_is_safe (a : node) : bool :=
  negb (opens_new_context a) || existsb (String.eqb "noreferrer") (rel_tokens a).

(** The section an in-page link scrolls to, when the link names one: the
    bare hash names none. *)
Definition scroll_target (a : node) : list string :=
  match node_attr "href" a with
  | Some (String "#"%char EmptyString) => []
  | Some (String "#"%char i) => [i]
  | _ => []
  end.

Fixpoint nodupb (l : list string) : bool :=
  match l with
  | [] => true
  | x :: rest => negb (existsb (String.eqb x) rest) && nodupb rest
  end.

(** The keys of a list of siblings, and whether everywhere in a tree the
    keys of siblings are pairwise distinct, as the reconciler asks. *)
Definition child_keys (children : list node) : list string :=
  flat_map (fun c => match node_attr "key" c with
                     | Some k => [k]
                     | None => []
                     end) children.

Fixpoint keys_distinct (n : node) : bool :=
  match n with
  | Elem _ _ _ ch => nodupb (child_keys ch) && forallb keys_distinct ch
  | _ => true
  end.

(** What a run renders, when it renders. *)
Definition rendered (e : env) (n : node) : list node :=
  match resolve e n with
  | Done dom => dom
  | _ => []
  end.

(** The user submits the form several times over. *)
Definition submissions (s : ContactFormState) (vs : list FormValues) : ContactFormState :=
  fold_left (fun s v => request_submit v s) vs s.

(** What a role of the timeline renders to. *)
Definition rendered_role (r : Role) : node :=
  el "div" [("key", role_title r)]
    [ el "div" [] [];
      el "div" []
        [ el "div" []
            [ el "span" [] [Text (period r)];
              el "a" [("href", orgLink r); ("target", "_blank");
                      ("rel", "noopener noreferrer")] [Text (org r)] ];
          el "h3" [] [Text (role_title r)];
          el "ul" []
            (map (fun p => el "li" [("key", p)] [Text p]) (points r)) ] ].

(** The entries of a rendered timeline: its keyed blocks. *)
Definition timeline_items (dom : list node) : list node :=
  filter (fun n => match node_attr "key" n with Some _ => true | None => false end)
         (flat_map (by_tag "div") dom).

(** What an entry of the timeline shows: period, organisation with its
    link, heading and points. *)
Definition item_shows (item : node) : list string * list (option string * list string)
                                     * list string * list string :=
  (flat_map texts (by_tag "span" item),
   map (fun a => (node_attr "href" a, texts a)) (by_tag "a" item),
   flat_map texts (by_tag "h3" item),
   flat_map texts (by_tag "li" item)).

(** What a rendered section is made of, given what its parts render to. *)
Definition rendered_section (id : string) (title kicker children : list node) : node :=
  el "section" [("id", id)]
    [ Elem "h2" [] (Some (entrance 12 (WhileInView true) 0.6 0))
        (el "span" [] kicker :: title);
      Elem "div" [] (Some (entrance 12 (WhileInView true) 0.6 0.1)) children ].

(** What the root layout puts around the rendered page. *)
Definition rendered_layout (dom : list node) : node :=
  el "html" [("lang", "en")]
    [ el "body" []
        (el "div" [] [ el "div" [] []; el "div" [] []; el "div" [] [] ] :: dom) ].

(** ** The first document of page.tsx

    The file opens with an earlier version of the same app, in plain
    JavaScript: the same scene, [Section], [ProjectCard], [ContactForm],
    [Skills] and navbar links, another hero and project list, no Experience
    section, and the cards keyed directly in the gallery. *)
Module Draft.

Definition Navbar : node :=
  Component "Navbar"
    [ el "div" []
        [ el "nav" []
            [ el "ul" []
                (map (fun l =>
                        el "li" [("key", nav_href l)]
                          [ el "a" [("href", nav_href l)] [Text (label l)] ])
                     links) ] ] ].

Definition Hero : node :=
  Component "Hero"
    [ el "div" []
        [ el "div" []
            [ Component "Canvas"
                [ el "div" []
                    [ el "div" []
                        [ el "canvas" [] [ Suspense [] [PortfolioScene] ] ] ] ] ];
          el "div" []
            [ el "div" []
                [ Elem "h1" [] (rise Animate 0.7 0) [Text "Krish Malinga"];
                  Elem "p" [] (rise Animate 0.8 0.08)
                    [ Text "Full‑stack developer building delightful, performant experiences. Focused on React, Next.js, Node, and 3D web." ];
                  Elem "div" [] (rise Animate 0.8 0.16)
                    [ el "a" [("href", "#projects")] [Text "View Projects"];
                      el "a" [("href", "#contact")] [Text "Contact"] ] ] ];
          el "div" [] [] ] ].

Definition projects : list ProjectCardProps :=
  [ {| title := "AI Worksheet Pro";
       description := "Multi‑curriculum generator with quizzes, vocabulary, and export workflows.";
       tags := Some ["React"; "Node"; "MySQL"; "RAG"];
       href := Some "#" |};
    {| title := "Everglow B2B";
       description := "Jewellery admin portal with dynamic SKUs, Cloudinary media, and Redis caching.";
       tags := Some ["React"; "Express"; "Redis"; "Cloudinary"];
       href := Some "#" |};
    {| title := "SheridanBites";
       description := "Food‑delivery prototype with clean architecture and testable services.";
       tags := Some ["Angular"; "Node"; "MongoDB"];
       href := Some "#" |};
    {| title := "ETL – Pet Rescue Charity";
       description := "Talend pipelines to Oracle star schema; analytics and dashboards.";
       tags := Some ["Talend"; "Oracle"; "SQL"];
       href := Some "#" |} ].

(** [projects.map((p) => <ProjectCard key={p.title} {...p} />)]. *)
Definition Gallery (projects : list ProjectCardProps) : node :=
  el "div" [] (map ProjectCard projects).

Definition Portfolio3DApp (year : string) (s : ContactFormState) : node :=
  Component "Portfolio3DApp"
    [ el "main" []
        [ Navbar;
          Hero;
          Section "about" [Text "About"] [Text "Introduction"]
            [ el "p" []
                [ Text "Builder who loves shipping polished interfaces and solving hard problems end‑to‑end. Obsessed with performance, accessibility, and developer ergonomics. Comfortable across the stack from UX to infra." ] ];
          Section "projects" [Text "Projects"] [Text "Work"] [Gallery projects];
          Section "skills" [Text "Skills"] [Text "Toolkit"] [Skills];
          Section "contact" [Text "Contact"] [Text "Let’s build"] [ContactForm s];
          el "footer" []
            [ el "span" [] [Text "© "; Text year; Text " Krish Malinga"];
              el "a" [("href", "#")] [Text "View résumé"] ] ] ].

End Draft.

(** A run in which one component fails. *)
Definition failing (name : string) : env :=
  {| suspended := fun _ => false; fails := String.eqb name |}.

(** The components of the page that are not part of the scene. *)
Definition outside_scene (page : node) : list string :=
  filter (fun n => negb (existsb (String.eqb n) (components PortfolioScene)))
         (components page).

(** * Properties *)

Example valid_email_samples :
  valid_email "not-an-email" = false
  /\ valid_email "sneh@example.com" = true
  /\ valid_email "a@b" = true
  /\ valid_email "a@@b.c" = false
  /\ valid_email "@b.c" = false
  /\ valid_email "a@b..c" = false
  /\ valid_email "a@-b.c" = false
  /\ valid_email "a b@c.d" = false.
Proof. repeat split; reflexivity. Qed.

(** ** Contact form *)

Lemma rendered_ContactForm (s : ContactFormState) :
  resolve healthy (ContactForm s) =
  Done [ el "form" [("onSubmit", "onSubmit")]
           [ el "input" [("placeholder", "Full name"); ("required", "true")] [];
             el "input" [("placeholder", "Email"); ("type", "email"); ("required", "true")] [];
             el "input" [("placeholder", "Subject")] [];
             el "textarea" [("placeholder", "Message"); ("required", "true")] [];
             el "button" [("type", "submit")]
               [Text (if sent s then "Sent ✓" else "Send message")] ] ].
Proof. reflexivity. Qed.

Lemma fire_submit_sent (v : FormValues) (s : ContactFormState) :
  fire_submit v s = {| sent := true |}.
Proof. reflexivity. Qed.

(** The browser fires the event exactly when the three required controls
    are filled and the e-mail control holds an address. *)
Lemma request_submit_gate (v : FormValues) (s : ContactFormState) :
  request_submit v s = if passes_validation v then {| sent := true |} else s.
Proof.
  unfold request_submit. rewrite rendered_ContactForm.
  unfold check_validity, passes_validation, control_values.
  cbn -[valid_email is_empty fire_submit control_valid].
  unfold control_valid. cbn -[valid_email is_empty fire_submit].
  rewrite fire_submit_sent.
  destruct (is_empty (fullName v)); cbn -[valid_email is_empty]; [reflexivity|].
  destruct (is_empty (email v)); cbn -[valid_email is_empty]; [reflexivity|].
  destruct (valid_email (email v)); cbn -[is_empty]; [|reflexivity].
  destruct (is_empty (message v)); reflexivity.
Qed.

Lemma perform_all_sent (ops : list operation) :
  forall s, sent (perform_all s ops) = sent s || existsb is_submit ops.
Proof.
  induction ops as [|op ops IH]; intro s.
  - cbn. now rewrite orb_false_r.
  - unfold perform_all in *. cbn [fold_left existsb]. rewrite IH.
    destruct op as [|e]; cbn.
    + reflexivity.
    + now rewrite orb_true_r.
Qed.

(** C1: the contact form owns one boolean, [sent], false when the form is
    mounted.  Every submit event delivered to the handler has its default
    action prevented and leaves [sent] true, so the browser does not
    navigate away; after a first submit every later one leaves the state as
    it is; and after any operations of the component [sent] is true exactly
    when it was true before or a submit was among them, so nothing resets
    it. *)
Theorem C1_sent_is_set_and_kept :
  sent ContactForm_mount = false
  /\ (forall e s, defaultPrevented (fst (onSubmit e s)) = true
                  /\ sent (snd (onSubmit e s)) = true)
  /\ (forall v s, fire_submit v s = {| sent := true |})
  /\ (forall e es, sent (perform_all ContactForm_mount (map Submit (e :: es))) = true)
  /\ (forall e e' s, snd (onSubmit e' (snd (onSubmit e s))) = snd (onSubmit e s))
  /\ (forall ops s, sent (perform_all s ops) = sent s || existsb is_submit ops).
Proof.
  split; [reflexivity|].
  split; [intros e s; split; reflexivity|].
  split; [exact fire_submit_sent|].
  split.
  { intros e es. rewrite perform_all_sent. cbn. reflexivity. }
  split; [reflexivity|].
  intros ops s. apply perform_all_sent.
Qed.

Example button_label_follows_sent :
  button_label ContactForm_mount = ["Send message"]
  /\ button_label (snd (onSubmit {| currentTarget :=
                                     {| fullName := "Sneh"; email := "s@example.com";
                                        subject := EmptyString; message := "Hi" |};
                                   defaultPrevented := false |}
                                ContactForm_mount)) = ["Sent ✓"].
Proof. split; reflexivity. Qed.

(** C2: when the user submits the form with something in the e-mail field
    that is no e-mail address (or nothing in it), or with the name or the
    message empty, the submission is blocked: the handler is not run and
    the state is what it was, so a form that was not sent stays not sent. *)
Theorem C2_invalid_input_blocks_submission (v : FormValues) (s : ContactFormState) :
  valid_email (email v) = false
  \/ fullName v = EmptyString
  \/ email v = EmptyString
  \/ message v = EmptyString ->
  request_submit v s = s
  /\ (sent s = false -> sent (request_submit v s) = false).
Proof.
  intro H.
  assert (G : passes_validation v = false).
  { unfold passes_validation.
    destruct H as [H | [H | [H | H]]]; rewrite H; cbn -[valid_email is_empty].
    - destruct (is_empty (fullName v)); cbn; [reflexivity|].
      destruct (is_empty (email v)); reflexivity.
    - reflexivity.
    - now rewrite andb_false_r.
    - now rewrite andb_false_r. }
  rewrite request_submit_gate, G. split; [reflexivity | trivial].
Qed.

Lemma C2_not_an_email_is_blocked :
  let v := {| fullName := "Sneh"; email := "not-an-email";
              subject := "Hello"; message := "A message" |} in
  valid_email (email v) = false
  /\ request_submit v ContactForm_mount = ContactForm_mount
  /\ sent (request_submit v ContactForm_mount) = false.
Proof.
  intro v.
  split; [reflexivity|].
  split.
  - apply (C2_invalid_input_blocks_submission v ContactForm_mount).
    left. reflexivity.
  - apply (C2_invalid_input_blocks_submission v ContactForm_mount).
    + left. reflexivity.
    + reflexivity.
Defined.

(** C9: the handler looks at nothing: whatever the four fields hold, it
    prevents the default action and sets [sent], and two events leave the
    same state.  The blocking of C2 is the browser's: it reads [required]
    on the name, e-mail and message controls and [type="email"] on the
    e-mail control of a form without [noValidate], and an event fired
    without that check reaches the handler with input the browser would
    have refused. *)
Theorem C9_handler_validates_nothing :
  (forall e s, onSubmit e s =
               ({| currentTarget := currentTarget e; defaultPrevented := true |},
                {| sent := true |}))
  /\ (forall e1 e2 s1 s2, snd (onSubmit e1 s1) = snd (onSubmit e2 s2))
  /\ (forall v s, sent (dispatch_submit v s) = true)
  /\ (forall s, exists form,
        resolve healthy (ContactForm s) = Done [form]
        /\ node_attr "noValidate" form = None
        /\ map (fun c => (node_attr "placeholder" c, node_attr "required" c,
                          node_attr "type" c)) (form_controls form)
           = [ (Some "Full name", Some "true", None);
               (Some "Email", Some "true", Some "email");
               (Some "Subject", None, None);
               (Some "Message", Some "true", None) ])
  /\ (forall v s, request_submit v s
                  = if passes_validation v then dispatch_submit v s else s).
Proof.
  split; [reflexivity|].
  split; [reflexivity|].
  split; [reflexivity|].
  split.
  { intro s. eexists. rewrite rendered_ContactForm.
    split; [reflexivity|]. split; reflexivity. }
  intros v s. rewrite request_submit_gate. reflexivity.
Qed.

(** ** Entrance animations *)

Lemma once_state_observe (m : motion) : once_state m (observe m).
Proof. left. repeat split. Qed.

Lemma once_state_step (m : motion) (v : in_view) (r : bool) :
  viewport_once m = true ->
  once_state m v ->
  once_state m (onIntersectionUpdate m v r).
Proof.
  intros Honce Hv. unfold onIntersectionUpdate.
  destruct (Bool.eqb (isInView v) r); [exact Hv|].
  rewrite Honce. cbn [active shows played isInView hasEnteredView andb].
  destruct Hv as [(Ha & Hp & Hs) | (Ha & Hp & Hs & He)].
  - destruct r; cbn [negb andb].
    + unfold setActive. cbn. rewrite Ha. cbn. right. rewrite Hp. repeat split.
      apply orb_true_r.
    + destruct (hasEnteredView v); cbn.
      * left. repeat split; assumption.
      * unfold setActive. cbn. rewrite Ha. cbn. left. repeat split; assumption.
  - rewrite He. destruct r; cbn [negb andb orb].
    + unfold setActive. cbn. rewrite Ha. cbn. right. repeat split; assumption.
    + right. repeat split; assumption.
Qed.

Lemma once_state_fold (m : motion) (reports : list bool) :
  viewport_once m = true ->
  forall v, once_state m v ->
            once_state m (fold_left (onIntersectionUpdate m) reports v).
Proof.
  intro Honce. induction reports as [|r reports IH]; intros v Hv.
  - exact Hv.
  - cbn. apply IH. now apply once_state_step.
Qed.

(** An element that is active stays active and shown, whatever comes. *)
Lemma entered_stays (m : motion) (reports : list bool) :
  viewport_once m = true ->
  forall v, once_state m v -> active v = true ->
            active (fold_left (onIntersectionUpdate m) reports v) = true.
Proof.
  intro Honce. induction reports as [|r reports IH]; intros v Hv Ha.
  - exact Ha.
  - cbn. apply IH; [now apply once_state_step|].
    unfold onIntersectionUpdate.
    destruct (Bool.eqb (isInView v) r); [exact Ha|].
    rewrite Honce. cbn [active shows played isInView hasEnteredView andb].
    destruct Hv as [(Ha' & _) | (_ & _ & _ & He)]; [congruence|].
    rewrite He. destruct r; cbn [negb andb orb].
    + unfold setActive. cbn. rewrite Ha. reflexivity.
    + exact Ha.
Qed.

(** While the observer says the element is in the viewport, the
    [whileInView] state is on. *)
Lemma in_view_is_active (m : motion) (reports : list bool) :
  forall v, (isInView v = true -> active v = true) ->
            let v' := fold_left (onIntersectionUpdate m) reports v in
            isInView v' = true -> active v' = true.
Proof.
  induction reports as [|r reports IH]; intros v Hv; [exact Hv|].
  cbn. apply IH. unfold onIntersectionUpdate.
  destruct (Bool.eqb (isInView v) r); [exact Hv|].
  cbn [isInView hasEnteredView active shows played].
  destruct r.
  - rewrite andb_false_r, andb_false_l. intros _.
    unfold setActive. cbn. destruct (active v); reflexivity.
  - destruct (viewport_once m && negb false && hasEnteredView v).
    + cbn. intro H. discriminate H.
    + unfold setActive. cbn. destruct (active v); cbn; intro H; discriminate H.
Qed.

(** A report that the element is in the viewport leaves it active. *)
Lemma entry_activates (m : motion) (v : in_view) :
  (isInView v = true -> active v = true) ->
  active (onIntersectionUpdate m v true) = true.
Proof.
  intro Hv. unfold onIntersectionUpdate.
  destruct (Bool.eqb (isInView v) true) eqn:E.
  - apply eqb_prop in E. auto.
  - cbn [isInView hasEnteredView active shows played].
    rewrite andb_false_r, andb_false_l.
    unfold setActive. cbn. destruct (active v); reflexivity.
Qed.

Lemma once_plays_once (m : motion) :
  viewport_once m = true -> plays_once m.
Proof.
  intros Honce reports. split.
  - destruct (once_state_fold m reports Honce (observe m) (once_state_observe m))
      as [(_ & Hp & _) | (_ & Hp & _)]; unfold scroll; rewrite Hp; lia.
  - intro later. unfold scroll. rewrite fold_left_app. cbn [fold_left].
    set (v := fold_left (onIntersectionUpdate m) reports (observe m)).
    assert (Hv : once_state m v)
      by (apply once_state_fold; [exact Honce | apply once_state_observe]).
    assert (Hsync : isInView v = true -> active v = true)
      by (apply (in_view_is_active m reports (observe m)); discriminate).
    assert (Hact : active (fold_left (onIntersectionUpdate m) later
                             (onIntersectionUpdate m v true)) = true).
    { apply entered_stays; [exact Honce | now apply once_state_step |].
      now apply entry_activates. }
    assert (Hend : once_state m (fold_left (onIntersectionUpdate m) later
                                   (onIntersectionUpdate m v true))).
    { apply once_state_fold; [exact Honce | now apply once_state_step]. }
    destruct Hend as [(Ha & _) | (_ & Hp & Hs & _)]; [congruence|].
    split; assumption.
Qed.

(** Without [once] the same scroll plays the entrance again: the flag is
    what the property rests on. *)
Example without_once_plays_again :
  let m := entrance 12 (WhileInView false) 0.6 0 in
  played (scroll m [true; false; true]) = 2%nat
  /\ shows (scroll m [true; false]) = initial m.
Proof. split; reflexivity. Qed.

Example section_scrolled_in_out_in :
  let m := entrance 12 (WhileInView true) 0.6 0 in
  played (scroll m [true; false; true]) = 1%nat
  /\ shows (scroll m [true; false]) = shown
  /\ shows (scroll m []) = hidden 12.
Proof. repeat split; reflexivity. Qed.

(** C3: the heading block and the content block of every section are the
    two animated blocks it renders, each going from invisible and 12 down
    to opaque and in place, each with [once]; whatever the scroll, each
    starts its transition at most once, and from the first time it was in
    the viewport it has started it exactly once and stays shown, so
    scrolling out and back in starts nothing.  In the rendered page every
    element animated by the viewport has [once]. *)
Theorem C3_entrance_plays_at_most_once :
  (forall id title kicker children,
     exists heading content,
       section_blocks (Section id title kicker children)
         = [Some heading; Some content]
       /\ initial heading = hidden 12 /\ target heading = shown
       /\ initial content = hidden 12 /\ target content = shown
       /\ plays_once heading /\ plays_once content)
  /\ (forall year s,
        Forall (fun m => when m = Animate \/ plays_once m)
               (flat_map motions (document healthy year s))).
Proof.
  split.
  - intros id title kicker children.
    exists (entrance 12 (WhileInView true) 0.6 0),
           (entrance 12 (WhileInView true) 0.6 0.1).
    repeat split; try reflexivity; apply once_plays_once; reflexivity.
  - intros year s. cbv [document]. cbn.
    repeat (constructor; [first [left; reflexivity
                                | right; apply once_plays_once; reflexivity]|]).
    constructor.
Qed.

(** ** Rendering lists *)

Lemma resolve_Elem (e : env) t a m ch :
  resolve e (Elem t a m ch) =
  match resolve_all e ch with
  | Done d => Done [Elem t a m d]
  | o => o
  end.
Proof. reflexivity. Qed.

Lemma resolve_Component (e : env) name ch :
  resolve e (Component name ch) =
  if fails e name then Threw
  else if suspended e name then Suspended
  else resolve_all e ch.
Proof. reflexivity. Qed.

Lemma resolve_all_cons (e : env) n rest :
  resolve_all e (n :: rest) =
  match resolve e n with
  | Done d =>
      match resolve_all e rest with
      | Done ds => Done (d ++ ds)
      | o => o
      end
  | o => o
  end.
Proof. reflexivity. Qed.

Lemma resolve_all_nil (e : env) : resolve_all e [] = Done [].
Proof. reflexivity. Qed.

Lemma resolve_Text (e : env) s : resolve e (Text s) = Done [Text s].
Proof. reflexivity. Qed.

(** A list of elements each rendering to itself renders to itself. *)
Lemma resolve_all_map {A : Type} (e : env) (f g : A -> node) (l : list A) :
  (forall x, resolve e (f x) = Done [g x]) ->
  resolve_all e (map f l) = Done (map g l).
Proof.
  intro H. induction l as [|x l IH]; [reflexivity|].
  cbn [map]. rewrite resolve_all_cons, H, IH. reflexivity.
Qed.

Lemma flat_map_map_nil {A B C : Type} (f : B -> list C) (g : A -> B) (l : list A) :
  (forall x, f (g x) = []) -> flat_map f (map g l) = [].
Proof.
  intro H. induction l as [|x l IH]; [reflexivity|].
  cbn. now rewrite H, IH.
Qed.

Lemma flat_map_map_single {A B C : Type} (f : B -> list C) (g : A -> B)
    (h : A -> C) (l : list A) :
  (forall x, f (g x) = [h x]) -> flat_map f (map g l) = map h l.
Proof.
  intro H. induction l as [|x l IH]; [reflexivity|].
  cbn. now rewrite H, IH.
Qed.

Lemma resolve_all_keyed (e : env) (tag : string) (l : list string) :
  resolve_all e (map (fun t => el tag [("key", t)] [Text t]) l)
  = Done (map (fun t => el tag [("key", t)] [Text t]) l).
Proof. apply resolve_all_map. reflexivity. Qed.

#[local] Hint Rewrite resolve_Elem resolve_Component resolve_Text
  resolve_all_cons resolve_all_nil resolve_all_keyed : render.

Lemma resolve_ProjectCard (p : ProjectCardProps) :
  resolve healthy (ProjectCard p) = Done [rendered_card p].
Proof. unfold ProjectCard, rendered_card. render. reflexivity. Qed.

Lemma by_tag_pills (t : string) (l : list string) :
  String.eqb t "span" = false ->
  flat_map (by_tag t) (map (fun x => el "span" [("key", x)] [Text x]) l) = [].
Proof.
  intro H. apply flat_map_map_nil. intro x. cbn. rewrite H. reflexivity.
Qed.

Lemma keyed_pills (tag : string) (l : list string) :
  flat_map keyed (map (fun x => el tag [("key", x)] [Text x]) l)
  = map (fun x => el tag [("key", x)] [Text x]) l.
Proof. apply flat_map_map_single. reflexivity. Qed.

Lemma texts_pills (tag : string) (l : list string) :
  flat_map texts (map (fun x => el tag [("key", x)] [Text x]) l) = l.
Proof.
  rewrite (flat_map_map_single texts _ (fun x => x)) by reflexivity.
  apply map_id.
Qed.

Lemma card_is_one_link (p : ProjectCardProps) :
  by_tag "a" (rendered_card p) = [rendered_card p].
Proof.
  unfold rendered_card.
  cbn [by_tag flat_map app String.eqb Ascii.eqb Bool.eqb].
  rewrite by_tag_pills by reflexivity. reflexivity.
Qed.

Lemma card_shows_title (p : ProjectCardProps) :
  card_title (rendered_card p) = [title p].
Proof.
  unfold card_title, rendered_card.
  cbn [by_tag flat_map app String.eqb Ascii.eqb Bool.eqb].
  rewrite by_tag_pills by reflexivity. reflexivity.
Qed.

Lemma card_shows_tags (p : ProjectCardProps) :
  card_tags (rendered_card p) = declared_tags p.
Proof.
  unfold card_tags, rendered_card, declared_tags.
  cbn [keyed has_attr get_attr flat_map app String.eqb Ascii.eqb Bool.eqb].
  rewrite keyed_pills, !app_nil_r. apply texts_pills.
Qed.

Lemma gallery_is_cards (ps : list ProjectCardProps) :
  gallery_cards ps = map rendered_card ps.
Proof.
  unfold gallery_cards, Gallery.
  rewrite resolve_Elem.
  rewrite (resolve_all_map healthy _
             (fun p => el "div" [("key", title p)] [rendered_card p])).
  - cbn [flat_map by_tag String.eqb Ascii.eqb Bool.eqb app].
    rewrite app_nil_r.
    apply flat_map_map_single. intro p.
    cbn [by_tag String.eqb Ascii.eqb Bool.eqb app flat_map].
    rewrite card_is_one_link. reflexivity.
  - intro p. render. rewrite resolve_ProjectCard. reflexivity.
Qed.

Lemma grid_is_list (l : list string) : grid_entries l = l.
Proof.
  unfold grid_entries, SkillsGrid. render.
  cbn [flat_map keyed has_attr get_attr app String.eqb Ascii.eqb Bool.eqb].
  rewrite keyed_pills, !app_nil_r. apply texts_pills.
Qed.

(** ** Lists are rendered as declared *)

(** C4: a gallery renders one card per project of its list, in the order
    of the list, each card showing the title and exactly the tags of its
    project, and a skills grid renders exactly the entries of its list in
    order, whatever the lists hold (so nothing is sorted, dropped or
    merged); in the rendered page the Projects section holds the four
    declared projects with their tags, the Skills section the nine declared
    skills, the Experience section the declared roles and their points, and
    the navbar the declared links, each in declared order. *)
Theorem C4_lists_render_in_declared_order :
  (forall ps : list ProjectCardProps,
     List.length (gallery_cards ps) = List.length ps
     /\ map card_title (gallery_cards ps) = map (fun p => [title p]) ps
     /\ map card_tags (gallery_cards ps) = map declared_tags ps)
  /\ (forall l : list string, grid_entries l = l)
  /\ (forall year s,
        let doc := document healthy year s in
        page_cards doc = map rendered_card projects
        /\ map card_title (page_cards doc) = map (fun p => [title p]) projects
        /\ map card_tags (page_cards doc) = map declared_tags projects
        /\ page_skills doc = skills
        /\ List.length (page_skills doc) = 9%nat
        /\ page_roles doc = map role_title roles
        /\ page_points doc = flat_map points roles
        /\ page_nav doc = map (fun l => (Some (nav_href l), [label l])) links).
Proof.
  split.
  { intro ps. rewrite gallery_is_cards, !map_map. split; [apply length_map|].
    split; apply map_ext; intro p.
    - apply card_shows_title.
    - apply card_shows_tags. }
  split; [exact grid_is_list|].
  intros year s doc. subst doc.
  repeat split; reflexivity.
Qed.

Example gallery_keeps_duplicates :
  let p := {| title := "Twice"; description := "d";
              tags := Some ["b"; "a"; "b"]; href := None |} in
  map card_tags (gallery_cards [p; p]) = [["b"; "a"; "b"]; ["b"; "a"; "b"]].
Proof. reflexivity. Qed.

(** C10: a card given no tags shows no pill, and a card given no href
    links to the placeholder; given them, it shows those tags and links
    there; the title and the description are always the ones given. *)
Theorem C10_card_defaults :
  (forall t d h,
     card_tags (rendered_card {| title := t; description := d;
                                 tags := None; href := h |}) = [])
  /\ (forall t d ts,
        card_href (rendered_card {| title := t; description := d;
                                    tags := ts; href := None |}) = Some "#")
  /\ (forall t d ts h,
        let p := {| title := t; description := d;
                    tags := Some ts; href := Some h |} in
        card_tags (rendered_card p) = ts /\ card_href (rendered_card p) = Some h)
  /\ (forall p,
        resolve healthy (ProjectCard p) = Done [rendered_card p]
        /\ card_title (rendered_card p) = [title p]
        /\ card_description (rendered_card p) = [description p]).
Proof.
  split.
  { intros t d h. rewrite card_shows_tags. reflexivity. }
  split; [reflexivity|].
  split.
  { intros t d ts h p. split; [apply card_shows_tags | reflexivity]. }
  intro p. split; [apply resolve_ProjectCard|].
  split; [apply card_shows_title|].
  unfold card_description, rendered_card.
  cbn [by_tag flat_map app String.eqb Ascii.eqb Bool.eqb].
  rewrite by_tag_pills by reflexivity. reflexivity.
Qed.

(** ** Anchors *)

Lemma page_ids (year : string) (s : ContactFormState) :
  flat_map ids (document healthy year s) = page_anchors.
Proof. reflexivity. Qed.

Lemma navbar_links : navbar_hrefs = ["#about"; "#projects"; "#skills"; "#contact"].
Proof. reflexivity. Qed.

(** C5, as stated, fails: the page has the five anchors and every navbar
    link has its section, but no navbar link leads to [#experience]. *)
Lemma C5_experience_has_no_navbar_link :
  ~ ((forall a, In a page_anchors ->
                In a (flat_map ids (document healthy "2026" ContactForm_mount)))
     /\ (forall h, In h navbar_hrefs ->
                   exists a, anchor_of h = Some a
                             /\ In a (flat_map ids (document healthy "2026" ContactForm_mount)))
     /\ (forall a, In a page_anchors -> In (String "#"%char a) navbar_hrefs)).
Proof.
  intros (_ & _ & H).
  specialize (H "experience").
  rewrite navbar_links in H. cbn in H.
  destruct H as [H | [H | [H | [H | []]]]]; try discriminate H.
  do 3 right. left. reflexivity.
Qed.

(** C5, amended: the rendered page has exactly the ids about, projects,
    skills, experience and contact, in that order; every link of the
    navbar is an in-page link to one of them; and the anchors the navbar
    links to are about, projects, skills and contact. *)
Theorem C5_anchors_and_navbar_links :
  (forall year s, flat_map ids (document healthy year s) = page_anchors)
  /\ Forall (fun h => exists a, anchor_of h = Some a /\ In a page_anchors)
            navbar_hrefs
  /\ filter (fun a => existsb (String.eqb (String "#"%char a)) navbar_hrefs)
            page_anchors
     = ["about"; "projects"; "skills"; "contact"].
Proof.
  split; [exact page_ids|].
  split; [|reflexivity].
  rewrite navbar_links.
  repeat constructor; eexists; (split; [reflexivity|]); cbn; tauto.
Qed.

(** ** The canvas *)




(** An error boundary around the hero is what would leave an empty area
    and the rest of the page. *)
Example boundary_would_degrade :
  resolve no_webgl (ErrorBoundary [] [Hero]) = Done []
  /\ resolve no_webgl Hero = Threw.
Proof. split; reflexivity. Qed.

(** ** Orbit controls *)










(** With the component's defaults the same gestures zoom past the limits
    and move the target: the limits and the pan switch are the scene's. *)
Example defaults_zoom_and_pan :
  radius (spherical (orbit Math_at_run OrbitControls_defaults camera_position
                       [Pointer (DollyOut 4)])) = 1.407346794503757%float
  /\ orbit_target (orbit Math_at_run OrbitControls_defaults camera_position
                     [Pointer (Pan (1, 0, 0)%float)])
     = (0.05, 0, 0)%float
  /\ radius (spherical (orbit Math_at_run PortfolioScene_controls camera_position
                          [Pointer (DollyOut 4)])) = 3%float
  /\ radius (spherical (orbit Math_at_run PortfolioScene_controls camera_position
                          [Pointer (DollyIn 4)])) = 8%float
  /\ camera_distance (orbit Math_at_run PortfolioScene_controls camera_position [])
     = 5.629387178015028%float.
Proof. repeat split; vm_compute; reflexivity. Qed.



(** ** Frame callbacks *)

Lemma total_from (ds : list Q) (a : Q) :
  fold_left Qplus ds a == a + Exact.total ds.
Proof.
  unfold Exact.total, elapsed. revert a.
  induction ds as [|d ds IH]; intro a; cbn [fold_left].
  - ring.
  - rewrite (IH (a + d)), (IH (0 + d)). ring.
Qed.

Lemma total_cons (d : Q) (ds : list Q) :
  Exact.total (d :: ds) == d + Exact.total ds.
Proof.
  unfold Exact.total at 1, elapsed. cbn [fold_left].
  rewrite total_from. ring.
Qed.

Lemma tetra_frames_exact (ds : list Q) :
  forall r,
    rx (Exact.SpinningTetra_frames r ds) == rx r + Exact.total ds * 0.3
    /\ ry (Exact.SpinningTetra_frames r ds) == ry r + Exact.total ds * 0.5
    /\ rz (Exact.SpinningTetra_frames r ds) = rz r.
Proof.
  unfold Exact.SpinningTetra_frames, frames.
  induction ds as [|d ds IH]; intro r; cbn [fold_left].
  - repeat split; try reflexivity; unfold Exact.total, elapsed; cbn; ring.
  - destruct (IH (SpinningTetra_useFrame Q Qplus Qmult (fun q => q) r d))
      as (Hx & Hy & Hz).
    rewrite Hx, Hy, Hz, total_cons. cbn [SpinningTetra_useFrame rx ry rz].
    repeat split; try reflexivity; ring.
Qed.

Lemma knot_frames_exact (ds : list Q) :
  forall r,
    rx (Exact.FloatingKnot_frames r ds) == rx r + Exact.total ds * 0.25
    /\ rz (Exact.FloatingKnot_frames r ds) == rz r + Exact.total ds * 0.15
    /\ ry (Exact.FloatingKnot_frames r ds) = ry r.
Proof.
  unfold Exact.FloatingKnot_frames, frames.
  induction ds as [|d ds IH]; intro r; cbn [fold_left].
  - repeat split; try reflexivity; unfold Exact.total, elapsed; cbn; ring.
  - destruct (IH (FloatingKnot_useFrame Q Qplus Qmult (fun q => q) r d))
      as (Hx & Hz & Hy).
    rewrite Hx, Hy, Hz, total_cons. cbn [FloatingKnot_useFrame rx ry rz].
    repeat split; try reflexivity; ring.
Qed.

(** In exact arithmetic two divisions of the same time turn a tetrahedron
    and the knot by the same angles. *)
Lemma exact_frames_depend_on_total (ds1 ds2 : list Q) (r : rotation Q) :
  Exact.total ds1 == Exact.total ds2 ->
  rx (Exact.SpinningTetra_frames r ds1) == rx (Exact.SpinningTetra_frames r ds2)
  /\ ry (Exact.SpinningTetra_frames r ds1) == ry (Exact.SpinningTetra_frames r ds2)
  /\ rx (Exact.FloatingKnot_frames r ds1) == rx (Exact.FloatingKnot_frames r ds2)
  /\ rz (Exact.FloatingKnot_frames r ds1) == rz (Exact.FloatingKnot_frames r ds2).
Proof.
  intro H.
  destruct (tetra_frames_exact ds1 r) as (X1 & Y1 & _).
  destruct (tetra_frames_exact ds2 r) as (X2 & Y2 & _).
  destruct (knot_frames_exact ds1 r) as (KX1 & KZ1 & _).
  destruct (knot_frames_exact ds2 r) as (KX2 & KZ2 & _).
  rewrite X1, X2, Y1, Y2, KX1, KX2, KZ1, KZ2, H.
  repeat split; reflexivity.
Qed.

Example float_literals :
  PrimFloat.eqb (float_of_Q 0.3) 0.3%float = true
  /\ PrimFloat.eqb (float_of_Q 0.5) 0.5%float = true
  /\ PrimFloat.eqb (float_of_Q 0.25) 0.25%float = true
  /\ PrimFloat.eqb (float_of_Q 0.15) 0.15%float = true.
Proof. repeat split; vm_compute; reflexivity. Qed.

(** C7, as stated, fails on the numbers of the code: two frames of 0.125
    and 0.625 cover the same 0.75 as one frame, and leave a tetrahedron at
    a different angle about x, and the knot at a different angle about z,
    than the one frame does. *)
Lemma C7_float_frames_depend_on_division :
  Float64.total [0.125; 0.625]%float = Float64.total [0.75]%float
  /\ rx (Float64.SpinningTetra_frames Float64.rest [0.125; 0.625]%float)
     <> rx (Float64.SpinningTetra_frames Float64.rest [0.75]%float)
  /\ rz (Float64.FloatingKnot_frames Float64.rest [0.125; 0.625]%float)
     <> rz (Float64.FloatingKnot_frames Float64.rest [0.75]%float)
  /\ PrimFloat.ltb
       (rx (Float64.SpinningTetra_frames Float64.rest [0.75]%float))
       (rx (Float64.SpinningTetra_frames Float64.rest [0.125; 0.625]%float))
     = true.
Proof.
  split; [vm_compute; reflexivity|].
  split; [|split].
  - intro H.
    apply (f_equal (fun a => PrimFloat.eqb a
             (rx (Float64.SpinningTetra_frames Float64.rest [0.75]%float)))) in H.
    vm_compute in H. discriminate H.
  - intro H.
    apply (f_equal (fun a => PrimFloat.eqb a
             (rz (Float64.FloatingKnot_frames Float64.rest [0.75]%float)))) in H.
    vm_compute in H. discriminate H.
  - vm_compute. reflexivity.
Qed.

(** C7, amended: each frame adds to the angles the time since the previous
    frame times a fixed rate (a tetrahedron: 0.3 about x and 0.5 about y;
    the knot: 0.25 about x and 0.15 about z), whatever the numbers are; in
    exact arithmetic the angles after any frames are the angles before
    plus the rate times the time the frames cover, and the third angle is
    untouched, so they depend on the frames through that time alone. *)
Theorem C7_rotation_is_rate_times_elapsed :
  (forall (num : Type) (add mul : num -> num -> num) (lit : Q -> num) r delta,
     SpinningTetra_useFrame num add mul lit r delta
     = Build_rotation (add (rx r) (mul delta (lit 0.3)))
                      (add (ry r) (mul delta (lit 0.5)))
                      (rz r)
     /\ FloatingKnot_useFrame num add mul lit r delta
        = Build_rotation (add (rx r) (mul delta (lit 0.25)))
                         (ry r)
                         (add (rz r) (mul delta (lit 0.15))))
  /\ (forall r ds,
        rx (Exact.SpinningTetra_frames r ds) == rx r + Exact.total ds * 0.3
        /\ ry (Exact.SpinningTetra_frames r ds) == ry r + Exact.total ds * 0.5
        /\ rz (Exact.SpinningTetra_frames r ds) = rz r)
  /\ (forall r ds,
        rx (Exact.FloatingKnot_frames r ds) == rx r + Exact.total ds * 0.25
        /\ rz (Exact.FloatingKnot_frames r ds) == rz r + Exact.total ds * 0.15
        /\ ry (Exact.FloatingKnot_frames r ds) = ry r).
Proof.
  split; [intros; split; reflexivity|].
  split; intros r ds; [apply tetra_frames_exact | apply knot_frames_exact].
Qed.

(** ** More of the page *)

Lemma by_tag_keyed (t tag : string) (l : list string) :
  String.eqb t tag = false ->
  flat_map (by_tag t) (map (fun x => el tag [("key", x)] [Text x]) l) = [].
Proof.
  intro H. apply flat_map_map_nil. intro x. cbn. rewrite H. reflexivity.
Qed.

Lemma resolve_role (r : Role) :
  resolve healthy
    (el "div" [("key", role_title r)]
       [ el "div" [] [];
         el "div" []
           [ el "div" []
               [ el "span" [] [Text (period r)];
                 el "a" [("href", orgLink r); ("target", "_blank");
                         ("rel", "noopener noreferrer")] [Text (org r)] ];
             el "h3" [] [Text (role_title r)];
             el "ul" []
               (map (fun p => el "li" [("key", p)] [Text p]) (points r)) ] ])
  = Done [rendered_role r].
Proof. unfold rendered_role. render. reflexivity. Qed.

Lemma rendered_Timeline (rs : list Role) :
  rendered healthy (Timeline rs)
  = [ el "div" [] [ el "div" [] []; el "div" [] (map rendered_role rs) ] ].
Proof.
  unfold rendered, Timeline.
  rewrite resolve_Component. cbn [healthy fails suspended].
  rewrite resolve_all_cons, resolve_Elem, resolve_all_cons, resolve_Elem,
    resolve_all_nil.
  rewrite resolve_all_cons, resolve_Elem.
  rewrite (resolve_all_map healthy _ rendered_role) by (intro r; apply resolve_role).
  reflexivity.
Qed.

Lemma role_divs (r : Role) :
  filter (fun n => match node_attr "key" n with Some _ => true | None => false end)
         (by_tag "div" (rendered_role r))
  = [rendered_role r].
Proof.
  unfold rendered_role.
  cbn [by_tag flat_map app String.eqb Ascii.eqb Bool.eqb].
  rewrite by_tag_keyed by reflexivity. reflexivity.
Qed.

Lemma timeline_items_are_roles (rs : list Role) :
  timeline_items (rendered healthy (Timeline rs)) = map rendered_role rs.
Proof.
  rewrite rendered_Timeline. unfold timeline_items.
  cbn [by_tag flat_map app String.eqb Ascii.eqb Bool.eqb filter node_attr get_attr].
  rewrite !app_nil_r.
  induction rs as [|r rs IH]; [reflexivity|].
  cbn [map flat_map]. rewrite filter_app, role_divs, IH. reflexivity.
Qed.

Lemma role_shows (r : Role) :
  item_shows (rendered_role r)
  = ([period r], [(Some (orgLink r), [org r])], [role_title r], points r).
Proof.
  unfold item_shows, rendered_role.
  cbn [by_tag flat_map app String.eqb Ascii.eqb Bool.eqb map texts node_attr get_attr].
  rewrite !by_tag_keyed by reflexivity.
  cbn [by_tag flat_map app String.eqb Ascii.eqb Bool.eqb map texts node_attr get_attr].
  rewrite (flat_map_map_single (by_tag "li") _
             (fun p => el "li" [("key", p)] [Text p])) by reflexivity.
  rewrite !app_nil_r, texts_pills. reflexivity.
Qed.

(** X1: the timeline of Experience renders one entry per role of its list,
    in the order of the list, and each entry shows the period, the
    organisation linked to its [orgLink], the title and the points of its
    role in order, whatever the list holds. *)
Theorem X1_timeline_renders_roles_in_order :
  forall rs : list Role,
    map item_shows (timeline_items (rendered healthy (Timeline rs)))
    = map (fun r => ([period r], [(Some (orgLink r), [org r])],
                     [role_title r], points r)) rs.
Proof.
  intro rs. rewrite timeline_items_are_roles, map_map.
  apply map_ext. intro r. apply role_shows.
Qed.

Example timeline_keeps_repeats :
  let r := {| period := "2020"; role_title := "Dev"; org := "Org";
              orgLink := "#"; points := ["b"; "a"; "b"] |} in
  map item_shows (timeline_items (rendered healthy (Timeline [r; r])))
  = [ (["2020"], [(Some "#", ["Org"])], ["Dev"], ["b"; "a"; "b"]);
      (["2020"], [(Some "#", ["Org"])], ["Dev"], ["b"; "a"; "b"]) ].
Proof. reflexivity. Qed.

Lemma role_links (r : Role) :
  by_tag "a" (rendered_role r)
  = [ el "a" [("href", orgLink r); ("target", "_blank");
              ("rel", "noopener noreferrer")] [Text (org r)] ].
Proof.
  unfold rendered_role.
  cbn [by_tag flat_map app String.eqb Ascii.eqb Bool.eqb].
  rewrite by_tag_keyed by reflexivity. reflexivity.
Qed.

Lemma timeline_links (rs : list Role) :
  links_of (rendered healthy (Timeline rs))
  = map (fun r => el "a" [("href", orgLink r); ("target", "_blank");
                          ("rel", "noopener noreferrer")] [Text (org r)]) rs.
Proof.
  rewrite rendered_Timeline. unfold links_of.
  cbn [by_tag flat_map app String.eqb Ascii.eqb Bool.eqb].
  rewrite !app_nil_r.
  apply flat_map_map_single. exact role_links.
Qed.

Lemma forallb_map_eq {A B : Type} (f : B -> bool) (g : A -> B) (l : list A) :
  forallb f (map g l) = forallb (fun x => f (g x)) l.
Proof.
  induction l as [|x l IH]; [reflexivity|]. cbn. now rewrite IH.
Qed.

(** X2: every card of a gallery and every organisation link of a timeline
    opens a new browsing context and carries [noreferrer] in its [rel],
    whatever the lists hold (an href cannot change that); in the rendered
    page, with or without the root layout, and in the page of the first
    document, no link opens a new context without [noreferrer]. *)
Theorem X2_new_context_links_carry_noreferrer :
  (forall ps : list ProjectCardProps,
     forallb (fun a => opens_new_context a && link_is_safe a)
             (gallery_cards ps) = true)
  /\ (forall rs : list Role,
        forallb (fun a => opens_new_context a && link_is_safe a)
                (links_of (rendered healthy (Timeline rs))) = true)
  /\ (forall year s,
        let doc := document healthy year s in
        forallb link_is_safe (links_of doc) = true
        /\ forallb link_is_safe
                   (links_of (rendered healthy (RootLayout [Portfolio3DApp year s])))
           = true
        /\ List.length (filter opens_new_context (links_of doc)) = 7%nat)
  /\ (forall year s,
        forallb link_is_safe
                (links_of (rendered healthy (Draft.Portfolio3DApp year s))) = true).
Proof.
  split.
  { intro ps. rewrite gallery_is_cards, forallb_map_eq.
    apply forallb_forall. intros p _. reflexivity. }
  split.
  { intro rs. rewrite timeline_links, forallb_map_eq.
    apply forallb_forall. intros r _. reflexivity. }
  split.
  { intros year s doc. subst doc. repeat split; reflexivity. }
  intros year s. reflexivity.
Qed.

(** A link that opens a new context without the token is told apart. *)
Example unsafe_link_is_seen :
  link_is_safe (el "a" [("href", "https://example.com"); ("target", "_blank")] [])
  = false
  /\ link_is_safe (el "a" [("href", "https://example.com"); ("target", "_blank");
                           ("rel", "noopener")] []) = false
  /\ link_is_safe (el "a" [("href", "#")] []) = true.
Proof. repeat split; reflexivity. Qed.

Lemma nodupb_NoDup (l : list string) : nodupb l = true <-> NoDup l.
Proof.
  induction l as [|x l IH]; cbn.
  - split; [constructor | reflexivity].
  - rewrite andb_true_iff, negb_true_iff, IH. split.
    + intros [Hx Hl]. constructor; [|exact Hl].
      intro Hin. assert (E : existsb (String.eqb x) l = true).
      { apply existsb_exists. exists x. split; [exact Hin | apply String.eqb_refl]. }
      congruence.
    + intro H. inversion H as [|y l' Hx Hl]; subst. split; [|exact Hl].
      destruct (existsb (String.eqb x) l) eqn:E; [|reflexivity].
      apply existsb_exists in E. destruct E as (y & Hy & Exy).
      apply String.eqb_eq in Exy. subst y. contradiction.
Qed.

(** X3: in the rendered page, with or without the root layout, the ids are
    pairwise distinct and every in-page link that names a section (the
    links of the navbar and the two buttons of the hero) names an id of the
    page; the other in-page links are the bare hash. *)
Theorem X3_in_page_links_reach_sections :
  forall year s,
    let doc := document healthy year s in
    let site := rendered healthy (RootLayout [Portfolio3DApp year s]) in
    NoDup (flat_map ids doc)
    /\ Forall (fun i => In i (flat_map ids doc))
              (flat_map scroll_target (links_of doc))
    /\ flat_map scroll_target (links_of doc)
       = ["about"; "projects"; "skills"; "contact"; "projects"; "contact"]
    /\ flat_map ids site = flat_map ids doc
    /\ flat_map scroll_target (links_of site)
       = flat_map scroll_target (links_of doc).
Proof.
  intros year s doc site.
  assert (Hids : flat_map ids doc = page_anchors) by reflexivity.
  assert (Hl : flat_map scroll_target (links_of doc)
               = ["about"; "projects"; "skills"; "contact"; "projects"; "contact"])
    by reflexivity.
  split.
  { apply nodupb_NoDup. rewrite Hids. reflexivity. }
  split.
  { rewrite Hl, Hids. unfold page_anchors.
    repeat constructor; cbn; tauto. }
  split; [exact Hl|].
  split; reflexivity.
Qed.

(** X4: in the page of the first document the ids are about, projects,
    skills and contact, and the links of the navbar are exactly the links
    to these four, in the same order: sections and navbar links correspond
    one to one.  Its gallery holds the four declared projects and its grid
    the declared skills, in declared order. *)
Theorem X4_first_document_navbar_matches_sections :
  forall year s,
    let doc := rendered healthy (Draft.Portfolio3DApp year s) in
    flat_map ids doc = ["about"; "projects"; "skills"; "contact"]
    /\ map (node_attr "href") (links_of (flat_map (by_tag "nav") doc))
       = map (fun i => Some (String "#"%char i)) (flat_map ids doc)
    /\ Forall (fun i => In i (flat_map ids doc))
              (flat_map scroll_target (links_of doc))
    /\ page_cards doc = map rendered_card Draft.projects
    /\ page_skills doc = skills.
Proof.
  intros year s doc.
  assert (Hids : flat_map ids doc = ["about"; "projects"; "skills"; "contact"])
    by reflexivity.
  split; [exact Hids|].
  split; [reflexivity|].
  split; [|split; reflexivity].
  rewrite Hids.
  assert (Hl : flat_map scroll_target (links_of doc)
               = ["about"; "projects"; "skills"; "contact"; "projects"; "contact"])
    by reflexivity.
  rewrite Hl. repeat constructor; cbn; tauto.
Qed.

(** ** Keys *)

Lemma child_keys_keyed (tag : string) (l : list string) :
  child_keys (map (fun x => el tag [("key", x)] [Text x]) l) = l.
Proof.
  unfold child_keys.
  rewrite (flat_map_map_single _ _ (fun x => x)) by reflexivity.
  apply map_id.
Qed.

Lemma keys_distinct_keyed (tag : string) (l : list string) :
  forallb keys_distinct (map (fun x => el tag [("key", x)] [Text x]) l) = true.
Proof.
  rewrite forallb_map_eq. apply forallb_forall. intros x _. reflexivity.
Qed.

Lemma card_keys (p : ProjectCardProps) :
  keys_distinct (rendered_card p) = nodupb (declared_tags p).
Proof.
  unfold rendered_card, declared_tags.
  cbn [keys_distinct forallb child_keys flat_map node_attr get_attr app nodupb
       String.eqb Ascii.eqb Bool.eqb andb].
  fold (child_keys (map (fun t => el "span" [("key", t)] [Text t])
                        (match tags p with Some ts => ts | None => [] end))).
  rewrite child_keys_keyed, keys_distinct_keyed, !andb_true_r. reflexivity.
Qed.

Lemma role_keys (r : Role) :
  keys_distinct (rendered_role r) = nodupb (points r).
Proof.
  unfold rendered_role.
  cbn [keys_distinct forallb child_keys flat_map node_attr get_attr app nodupb
       String.eqb Ascii.eqb Bool.eqb andb].
  fold (child_keys (map (fun p => el "li" [("key", p)] [Text p]) (points r))).
  rewrite child_keys_keyed, keys_distinct_keyed, !andb_true_r. reflexivity.
Qed.

Lemma rendered_Gallery (ps : list ProjectCardProps) :
  rendered healthy (Gallery ps)
  = [ el "div" [] (map (fun p => el "div" [("key", title p)] [rendered_card p]) ps) ].
Proof.
  unfold rendered, Gallery. rewrite resolve_Elem.
  rewrite (resolve_all_map healthy _
             (fun p => el "div" [("key", title p)] [rendered_card p])).
  - reflexivity.
  - intro p. render. rewrite resolve_ProjectCard. reflexivity.
Qed.

Lemma rendered_SkillsGrid (l : list string) :
  rendered healthy (SkillsGrid l)
  = [ el "div" [] (map (fun s => el "div" [("key", s)] [Text s]) l) ].
Proof. unfold rendered, SkillsGrid. render. reflexivity. Qed.

Lemma forallb_pointwise {A : Type} (f g : A -> bool) (l : list A) :
  (forall x, f x = g x) -> forallb f l = forallb g l.
Proof.
  intro H. induction l as [|x l IH]; [reflexivity|]. cbn. now rewrite H, IH.
Qed.

(** X5: the keys a gallery gives its cards are the titles and the keys a
    card gives its pills are the tags, so the keys of siblings in a
    rendered gallery are pairwise distinct exactly when no two projects
    share a title and no project repeats a tag; likewise a skills grid
    exactly when no skill is repeated, and a timeline exactly when no two
    roles share a title and no role repeats a point.  In the rendered page
    the keys of siblings are distinct everywhere. *)
Theorem X5_sibling_keys_are_distinct :
  (forall ps : list ProjectCardProps,
     forallb keys_distinct (rendered healthy (Gallery ps))
     = nodupb (map title ps) && forallb (fun p => nodupb (declared_tags p)) ps)
  /\ (forall l : list string,
        forallb keys_distinct (rendered healthy (SkillsGrid l)) = nodupb l)
  /\ (forall rs : list Role,
        forallb keys_distinct (rendered healthy (Timeline rs))
        = nodupb (map role_title rs) && forallb (fun r => nodupb (points r)) rs)
  /\ (forall year s,
        forallb keys_distinct (document healthy year s) = true).
Proof.
  split.
  { intro ps. rewrite rendered_Gallery.
    cbn [forallb keys_distinct]. rewrite andb_true_r. f_equal.
    - unfold child_keys.
      rewrite (flat_map_map_single _ _ title) by reflexivity. reflexivity.
    - rewrite forallb_map_eq. apply forallb_pointwise. intro p.
      cbn [keys_distinct forallb child_keys flat_map app nodupb andb].
      unfold rendered_card at 1.
      cbn [node_attr get_attr String.eqb Ascii.eqb Bool.eqb app nodupb andb].
      rewrite card_keys, andb_true_r. reflexivity. }
  split.
  { intro l. rewrite rendered_SkillsGrid.
    cbn [forallb keys_distinct].
    rewrite child_keys_keyed, keys_distinct_keyed, !andb_true_r. reflexivity. }
  split.
  { intro rs. rewrite rendered_Timeline.
    cbn [forallb keys_distinct child_keys flat_map node_attr get_attr app nodupb
         String.eqb Ascii.eqb Bool.eqb andb].
    rewrite !andb_true_r. f_equal.
    - fold (child_keys (map rendered_role rs)). unfold child_keys.
      rewrite (flat_map_map_single _ _ role_title) by reflexivity. reflexivity.
    - rewrite forallb_map_eq. apply forallb_pointwise. intro r. apply role_keys. }
  intros year s. reflexivity.
Qed.

Example repeated_title_shares_a_key :
  let p := {| title := "Twice"; description := "d"; tags := None; href := None |} in
  forallb keys_distinct (rendered healthy (Gallery [p; p])) = false
  /\ forallb keys_distinct (rendered healthy (Gallery [p])) = true.
Proof. split; reflexivity. Qed.

(** ** Submitting more than once *)

Lemma submissions_sent (vs : list FormValues) :
  forall s, sent (submissions s vs) = sent s || existsb passes_validation vs.
Proof.
  unfold submissions.
  induction vs as [|v vs IH]; intro s; cbn [fold_left existsb].
  - now rewrite orb_false_r.
  - rewrite IH, request_submit_gate.
    destruct (passes_validation v); cbn.
    + now rewrite orb_true_r.
    + reflexivity.
Qed.

Lemma button_label_of (s : ContactFormState) :
  button_label s = [if sent s then "Sent ✓" else "Send message"].
Proof. unfold button_label. rewrite rendered_ContactForm. reflexivity. Qed.

Lemma is_empty_false (s : string) : is_empty s = false <-> s <> EmptyString.
Proof.
  destruct s; cbn; split; intro H; try reflexivity; try discriminate.
  contradiction H. reflexivity.
Qed.

Lemma valid_email_not_empty (s : string) : valid_email s = true -> is_empty s = false.
Proof. destruct s; [discriminate | reflexivity]. Qed.

(** X6: however often the user submits the form, [sent] is afterwards true
    exactly when it was true before or one of the submissions had a name,
    an e-mail address and a message; the button of a form mounted unsent
    reads "Sent" with the check mark exactly in that case and "Send
    message" otherwise, so a refused submission changes nothing and a
    submission after a sent one is accepted and changes nothing. *)
Theorem X6_sent_after_user_submissions :
  (forall vs s, sent (submissions s vs) = sent s || existsb passes_validation vs)
  /\ (forall vs,
        button_label (submissions ContactForm_mount vs)
        = [if existsb passes_validation vs then "Sent ✓" else "Send message"])
  /\ (forall v,
        passes_validation v = true
        <-> fullName v <> EmptyString
            /\ valid_email (email v) = true
            /\ message v <> EmptyString).
Proof.
  split; [intros vs s; apply submissions_sent|].
  split.
  { intro vs. rewrite button_label_of, submissions_sent. reflexivity. }
  intro v. unfold passes_validation.
  rewrite !andb_true_iff, !negb_true_iff, !is_empty_false. split.
  - intros [[Hn [He Hv]] Hm]. rewrite orb_true_iff in Hv.
    destruct Hv as [Hv | Hv].
    + apply is_empty_false in He. congruence.
    + tauto.
  - intros (Hn & Hv & Hm). repeat split; try assumption.
    + apply is_empty_false. now apply valid_email_not_empty.
    + rewrite Hv. apply orb_true_r.
Qed.

Example submissions_sample :
  let bad := {| fullName := "Sneh"; email := "not-an-email";
                subject := EmptyString; message := "Hi" |} in
  let good := {| fullName := "Sneh"; email := "sneh@example.com";
                 subject := EmptyString; message := "Hi" |} in
  sent (submissions ContactForm_mount [bad; bad]) = false
  /\ sent (submissions ContactForm_mount [bad; good; bad]) = true
  /\ button_label (submissions ContactForm_mount [bad]) = ["Send message"].
Proof. repeat split; reflexivity. Qed.

(** ** Sections and the layout around any content *)

Lemma resolve_Section (e : env) (id : string) (title kicker children : list node) :
  resolve e (Section id title kicker children)
  = if fails e "Section" then Threw
    else if suspended e "Section" then Suspended
    else match resolve_all e kicker with
         | Done k =>
             match resolve_all e title with
             | Done t =>
                 match resolve_all e children with
                 | Done c => Done [rendered_section id t k c]
                 | o => o
                 end
             | o => o
             end
         | o => o
         end.
Proof.
  unfold Section, rendered_section. rewrite resolve_Component.
  destruct (fails e "Section"); [reflexivity|].
  destruct (suspended e "Section"); [reflexivity|].
  rewrite resolve_all_cons, resolve_Elem, resolve_all_cons, resolve_Elem.
  rewrite (resolve_all_cons e (Elem "span" [] None kicker) title), resolve_Elem.
  destruct (resolve_all e kicker) as [k| |]; try reflexivity.
  destruct (resolve_all e title) as [t| |]; try reflexivity.
  rewrite resolve_all_cons, resolve_Elem.
  destruct (resolve_all e children) as [c| |]; reflexivity.
Qed.

(** X7: a section renders to one [section] element with its id, holding
    the kicker and the title in the heading block and the children,
    unchanged, in the content block; when the section itself or one of its
    parts suspends or throws, so does the section, which catches nothing.
    The ids of a rendered section are its own followed by those of its
    parts, looking its id up finds the section itself even when a child
    carries the same id, and its text reads kicker, title, children. *)
Theorem X7_section_wraps_its_children :
  (forall e id title kicker children,
     resolve e (Section id title kicker children)
     = if fails e "Section" then Threw
       else if suspended e "Section" then Suspended
       else match resolve_all e kicker with
            | Done k =>
                match resolve_all e title with
                | Done t =>
                    match resolve_all e children with
                    | Done c => Done [rendered_section id t k c]
                    | o => o
                    end
                | o => o
                end
            | o => o
            end)
  /\ (forall id t k c,
        ids (rendered_section id t k c)
        = id :: flat_map ids k ++ flat_map ids t ++ flat_map ids c
        /\ by_id id (rendered_section id t k c) = [rendered_section id t k c]
        /\ texts (rendered_section id t k c)
           = flat_map texts k ++ flat_map texts t ++ flat_map texts c
        /\ node_children
             (nth 1 (node_children (rendered_section id t k c)) (Text EmptyString))
           = c).
Proof.
  split; [exact resolve_Section|].
  intros id t k c. unfold rendered_section.
  split.
  { cbn [ids get_attr String.eqb Ascii.eqb Bool.eqb flat_map app].
    rewrite !app_nil_r, <- app_assoc. reflexivity. }
  split.
  { cbn [by_id get_attr String.eqb Ascii.eqb Bool.eqb].
    rewrite String.eqb_refl. reflexivity. }
  split; [|reflexivity].
  cbn [texts flat_map app]. rewrite !app_nil_r, <- app_assoc. reflexivity.
Qed.

Lemma resolve_RootLayout (e : env) (children : list node) :
  resolve e (RootLayout children)
  = if fails e "RootLayout" then Threw
    else if suspended e "RootLayout" then Suspended
    else match resolve_all e children with
         | Done dom => Done [rendered_layout dom]
         | o => o
         end.
Proof.
  unfold RootLayout, rendered_layout. rewrite resolve_Component.
  destruct (fails e "RootLayout"); [reflexivity|].
  destruct (suspended e "RootLayout"); [reflexivity|].
  rewrite resolve_all_cons, resolve_Elem, resolve_all_cons, resolve_Elem.
  rewrite (resolve_all_cons e _ children).
  replace (resolve e (Elem "div" [] None
                        [Elem "div" [] None []; Elem "div" [] None [];
                         Elem "div" [] None []]))
    with (Done [Elem "div" [] None
                  [Elem "div" [] None []; Elem "div" [] None [];
                   Elem "div" [] None []]]) by reflexivity.
  destruct (resolve_all e children) as [dom| |]; reflexivity.
Qed.

(** X8: the root layout renders whatever it is given inside [html] and
    [body], after the three background layers, and passes a suspension or
    an error of its children on; the layers carry no id, link, text or
    animation, so a page has inside the layout the ids, links, texts and
    animated elements it has alone. *)
Theorem X8_layout_adds_only_background :
  (forall e children,
     resolve e (RootLayout children)
     = if fails e "RootLayout" then Threw
       else if suspended e "RootLayout" then Suspended
       else match resolve_all e children with
            | Done dom => Done [rendered_layout dom]
            | o => o
            end)
  /\ (forall dom,
        ids (rendered_layout dom) = flat_map ids dom
        /\ links_of [rendered_layout dom] = links_of dom
        /\ texts (rendered_layout dom) = flat_map texts dom
        /\ motions (rendered_layout dom) = flat_map motions dom
        /\ skipn 1 (node_children
                      (nth 0 (node_children (rendered_layout dom)) (Text EmptyString)))
           = dom).
Proof.
  split; [exact resolve_RootLayout|].
  intro dom. unfold rendered_layout, links_of.
  repeat split;
    cbn [ids by_tag texts motions get_attr String.eqb Ascii.eqb Bool.eqb
         flat_map app];
    rewrite ?app_nil_r; reflexivity.
Qed.

(** ** Frames, whatever the numbers *)

Section AnyNumbers.

Variable num : Type.
Variable add mul : num -> num -> num.
Variable lit : Q -> num.

Lemma tetra_keeps_z (ds : list num) :
  forall r, rz (frames num (SpinningTetra_useFrame num add mul lit) r ds) = rz r.
Proof.
  unfold frames. induction ds as [|d ds IH]; intro r; [reflexivity|].
  cbn [fold_left]. rewrite IH. reflexivity.
Qed.

Lemma knot_keeps_y (ds : list num) :
  forall r, ry (frames num (FloatingKnot_useFrame num add mul lit) r ds) = ry r.
Proof.
  unfold frames. induction ds as [|d ds IH]; intro r; [reflexivity|].
  cbn [fold_left]. rewrite IH. reflexivity.
Qed.

(** The x angle of a tetrahedron after some frames depends on the x angle
    before and on the frames, not on the other two angles. *)
Lemma tetra_x_alone (ds : list num) :
  forall r r', rx r = rx r' ->
    rx (frames num (SpinningTetra_useFrame num add mul lit) r ds)
    = rx (frames num (SpinningTetra_useFrame num add mul lit) r' ds).
Proof.
  unfold frames. induction ds as [|d ds IH]; intros r r' H; [exact H|].
  cbn [fold_left]. apply IH. cbn. now rewrite H.
Qed.

Lemma tetra_y_alone (ds : list num) :
  forall r r', ry r = ry r' ->
    ry (frames num (SpinningTetra_useFrame num add mul lit) r ds)
    = ry (frames num (SpinningTetra_useFrame num add mul lit) r' ds).
Proof.
  unfold frames. induction ds as [|d ds IH]; intros r r' H; [exact H|].
  cbn [fold_left]. apply IH. cbn. now rewrite H.
Qed.

End AnyNumbers.

(** X9: on the numbers of the code (binary64) as on any others, the frame
    callback of a tetrahedron never changes its angle about z and that of
    the knot never changes its angle about y; the x and the y angle of a
    tetrahedron each evolve on their own (two tetrahedra that agree on one
    of them before some frames agree on it after); and frames played in
    two batches leave what the same frames played in one leave. *)
Theorem X9_frames_on_floats :
  (forall r ds, rz (Float64.SpinningTetra_frames r ds) = rz r)
  /\ (forall r ds, ry (Float64.FloatingKnot_frames r ds) = ry r)
  /\ (forall r r' ds,
        (rx r = rx r' ->
         rx (Float64.SpinningTetra_frames r ds) = rx (Float64.SpinningTetra_frames r' ds))
        /\ (ry r = ry r' ->
            ry (Float64.SpinningTetra_frames r ds) = ry (Float64.SpinningTetra_frames r' ds)))
  /\ (forall r ds1 ds2,
        Float64.SpinningTetra_frames r (ds1 ++ ds2)
        = Float64.SpinningTetra_frames (Float64.SpinningTetra_frames r ds1) ds2
        /\ Float64.FloatingKnot_frames r (ds1 ++ ds2)
           = Float64.FloatingKnot_frames (Float64.FloatingKnot_frames r ds1) ds2).
Proof.
  split; [intros r ds; apply tetra_keeps_z|].
  split; [intros r ds; apply knot_keeps_y|].
  split.
  { intros r r' ds. split; intro H; [now apply tetra_x_alone | now apply tetra_y_alone]. }
  intros r ds1 ds2. split; apply fold_left_app.
Qed.

(** ** Boundaries of the page *)

(** X10: the [Suspense] inside the canvas is the only boundary of the
    page: a component outside the scene that waits for a resource suspends
    the whole page, and a component that fails, wherever it stands, makes
    the whole page fail, with or without the root layout. *)
Theorem X10_no_boundary_outside_the_canvas :
  forall year s,
    let page := Portfolio3DApp year s in
    Forall (fun name => resolve (waiting_for name) page = Suspended)
           (outside_scene page)
    /\ Forall (fun name => resolve (failing name) page = Threw
                           /\ resolve (failing name) (RootLayout [page]) = Threw)
              (components page)
    /\ outside_scene page
       = [ "Portfolio3DApp"; "Navbar"; "Hero"; "Canvas"; "Section"; "Section";
           "ProjectCard"; "ProjectCard"; "ProjectCard"; "ProjectCard";
           "Section"; "Skills"; "Section"; "Experience"; "Section";
           "ContactForm" ].
Proof.
  intros year s page. subst page.
  split; [|split; [|reflexivity]].
  - repeat (constructor; [reflexivity|]). constructor.
  - repeat (constructor; [split; reflexivity|]). constructor.
Qed.
